(** * XdFontList: the font inventory of an XD archive

    A shallow embedding of [xd_font_list.js] and the properties of its
    manifest enumeration, recursive font scan and catalog aggregation. *)

From Stdlib Require Import String Ascii List ZArith NArith Lia Bool.
From stdpp Require Import base strings list gmap.
Import ListNotations.
Local Open Scope string_scope.
Set Warnings "-register-all".

(** ** Values and completions *)

(** The two exceptions the program can raise: a [TypeError] (property
    access on [null], call of a non-function, iteration of a non-iterable)
    and the [SyntaxError] of [JSON.parse]. *)
Inductive error := TypeError | SyntaxError.

Inductive result (A : Type) :=
| Ok (a : A)
| Throw (e : error).
Arguments Ok {A} a.
Arguments Throw {A} e.

Notation "'let!' x ':=' e1 'in' e2" :=
  (match e1 with Ok x => e2 | Throw err => Throw err end)
  (at level 10, x name, e1 at level 100, e2 at level 200, only parsing).

(** What [JSON.parse] returns.  A string holds one [ascii] per UTF-16 code
    unit (code points below 256); a number is carried by the text
    [Number::toString] gives for it, the only thing this program observes of
    a number.  [JObj] lists the own properties in the order [Object.keys]
    reports them, with pairwise distinct keys. *)
Inductive json :=
| JNull
| JBool (b : bool)
| JNum (rendering : string)
| JStr (s : string)
| JArr (items : list json)
| JObj (props : list (string * json)).

(** A JavaScript value read by the program: [None] is [undefined]. *)
Definition jsval := option json.

Definition undefined : jsval := None.

(** ** Ordinary objects used as dictionaries *)

(** The own properties of an object, in [Object.keys] order. *)
Definition props (A : Type) := list (string * A).

Fixpoint own_get {A} (k : string) (o : props A) : option A :=
  match o with
  | [] => None
  | (k', v) :: rest => if String.eqb k' k then Some v else own_get k rest
  end.

Definition own_keys {A} (o : props A) : list string := map fst o.

Definition has_own {A} (k : string) (o : props A) : bool :=
  match own_get k o with Some _ => true | None => false end.

(** [v[k]] and [v.k] for the property names the program reads ([id], [name],
    [path], [children], [fontFamily], [fontStyle], [postscriptName],
    [family], [style]), none of which a built-in prototype defines: an own
    property of an object, [undefined] on any other non-null value, a
    [TypeError] on [null]. *)
Definition get_prop (v : json) (k : string) : result jsval :=
  match v with
  | JNull => Throw TypeError
  | JObj o => Ok (own_get k o)
  | _ => Ok undefined
  end.

(** [v === s] against a string literal [s]. *)
Definition is_string (s : string) (v : jsval) : bool :=
  match v with
  | Some (JStr s') => String.eqb s' s
  | _ => false
  end.

(** [ToString] of a value, as string concatenation, template literals and
    property keys apply it.  An array is joined with commas, [null] elements
    rendering as the empty string.  A plain object renders as
    ["[object Object]"], unless an own [toString] property (never callable in
    decoded JSON) shadows [Object.prototype.toString]: then no primitive is
    obtained and a [TypeError] is raised. *)
Fixpoint js_toString (v : json) : result string :=
  match v with
  | JNull => Ok "null"
  | JBool true => Ok "true"
  | JBool false => Ok "false"
  | JNum r => Ok r
  | JStr s => Ok s
  | JArr items =>
      (fix join (l : list json) : result string :=
         match l with
         | [] => Ok ""
         | x :: rest =>
             let! sx := match x with JNull => Ok "" | _ => js_toString x end in
             match rest with
             | [] => Ok sx
             | _ => let! sr := join rest in Ok (sx ++ "," ++ sr)
             end
         end) items
  | JObj o => if has_own "toString" o then Throw TypeError
              else Ok "[object Object]"
  end.

Definition toString (v : jsval) : result string :=
  match v with
  | None => Ok "undefined"
  | Some j => js_toString j
  end.

(** [ToBoolean]: [null], [false], [0] and the empty string are falsy. *)
Definition truthy (v : json) : bool :=
  match v with
  | JNull => false
  | JBool b => b
  | JNum r => negb (String.eqb r "0")
  | JStr s => negb (String.eqb s "")
  | _ => true
  end.

(** What [for (let x of v)] visits: the elements of an array, the
    characters of a string; any other decoded value is not iterable. *)
Definition iterate (v : json) : result (list json) :=
  match v with
  | JArr items => Ok items
  | JStr s => Ok (map (fun c => JStr (String c "")) (list_ascii_of_string s))
  | _ => Throw TypeError
  end.

(** ** FontData *)

Module FontData.

Record t := mk {
  name : jsval;
  style : jsval;
  postScriptName : jsval;
  usages : list string
}.

(** The constructor: a [null] or [undefined] style becomes the empty
    string. *)
Definition new (name style postScriptName : jsval) : t :=
  let style := match style with
               | None | Some JNull => Some (JStr "")
               | _ => style
               end in
  {| name := name; style := style; postScriptName := postScriptName;
     usages := [] |}.

(** The [id] getter. *)
Definition id (this : t) : jsval := postScriptName this.

(** [addUsage]: appends the label unless the list already includes it. *)
Definition addUsage (label : string) (this : t) : t :=
  if existsb (String.eqb label) (usages this) then this
  else {| name := name this; style := style this;
          postScriptName := postScriptName this;
          usages := (usages this ++ [label])%list |}.

(** [getUsages]: the report block of one font. *)
Definition getUsages (this : t) : result string :=
  let! n := toString (name this) in
  let! st := toString (style this) in
  Ok (fold_left (fun r usage => r ++ "  - " ++ usage ++ String "010" "")
                (usages this) (n ++ ":" ++ st ++ String "010" "")).

End FontData.

(** ** Insertion into an ordinary object

    [Object.keys] lists the array-index keys (canonical decimal integers up
    to 2^32 - 2) first, in ascending numeric order, then every other key in
    the order of its creation.  Assigning to an existing key keeps its
    place. *)

Definition is_digit (c : ascii) : bool :=
  ((48 <=? N_of_ascii c) && (N_of_ascii c <=? 57))%N.

Fixpoint digits_value (s : string) (acc : N) : option N :=
  match s with
  | EmptyString => Some acc
  | String c rest =>
      if is_digit c then digits_value rest (10 * acc + (N_of_ascii c - 48))%N
      else None
  end.

Definition array_index (k : string) : option N :=
  match k with
  | EmptyString => None
  | String c rest =>
      if Ascii.eqb c "0" && negb (String.eqb rest "") then None
      else match digits_value k 0%N with
           | Some n => if (n <=? 4294967294)%N then Some n else None
           | None => None
           end
  end.

Fixpoint replace_own {A} (k : string) (v : A) (o : props A) : props A :=
  match o with
  | [] => []
  | (k', v') :: rest =>
      if String.eqb k' k then (k', v) :: rest
      else (k', v') :: replace_own k v rest
  end.

Fixpoint insert_index {A} (i : N) (k : string) (v : A) (o : props A)
  : props A :=
  match o with
  | [] => [(k, v)]
  | (k', v') :: rest =>
      match array_index k' with
      | Some j => if (j <? i)%N then (k', v') :: insert_index i k v rest
                  else (k, v) :: o
      | None => (k, v) :: o
      end
  end.

Definition insert_new {A} (k : string) (v : A) (o : props A) : props A :=
  match array_index k with
  | Some i => insert_index i k v o
  | None => (o ++ [(k, v)])%list
  end.

(** [o[k] = v] on an object whose prototype chain holds no accessor for [k]. *)
Definition own_set {A} (k : string) (v : A) (o : props A) : props A :=
  if has_own k o then replace_own k v o else insert_new k v o.

(** ** ArtBoardIndex *)

Module ArtBoardIndex.

Record t := mk {
  id : jsval;
  name : jsval;
  path : jsval;
  contents : json
}.

Definition new (object : json) : result t :=
  let! i := get_prop object "id" in
  let! n := get_prop object "name" in
  let! p := get_prop object "path" in
  Ok {| id := i; name := n; path := p; contents := object |}.

Definition isLoaded (this : t) : bool :=
  match contents this with JNull => false | _ => true end.

(** [this.path.startsWith('artboard')]: only a string has the method. *)
Definition isArtBoard (this : t) : result bool :=
  match path this with
  | Some (JStr p) => Ok (String.prefix "artboard" p)
  | _ => Throw TypeError
  end.

Definition getDataPath (this : t) : result string :=
  let! p := toString (path this) in
  Ok ("artwork/" ++ p ++ "/graphics/graphicContent.agc").

(** The usage label [index.name + ` [${index.id}]`]. *)
Definition label (this : t) : result string :=
  let! i := toString (id this) in
  let! n := toString (name this) in
  Ok (n ++ " [" ++ i ++ "]").

End ArtBoardIndex.

(** ** The archive

    The text of an entry is represented by what [JSON.parse] makes of it. *)
Inductive text :=
| Malformed
| Encodes (v : json).

Definition JSON_parse (t : text) : result json :=
  match t with
  | Malformed => Throw SyntaxError
  | Encodes v => Ok v
  end.

Abbreviation archive := (gmap string text).

(** [zip.getEntry(name)]: the entry, or [null]. *)
Definition getEntry (zip : archive) (entryName : string) : option text :=
  zip !! entryName.

(** [entry.getData().toString('utf8')]. *)
Definition getData (entry : option text) : result text :=
  match entry with
  | None => Throw TypeError
  | Some t => Ok t
  end.

(** ** Manifest *)

Module Manifest.

Definition t := json.

Definition new (data : text) : result t := JSON_parse data.

Definition isLoaded (manifest : t) : bool :=
  match manifest with JNull => false | _ => true end.

Fixpoint findArtWork (children : list json) : result jsval :=
  match children with
  | [] => Ok undefined
  | child :: rest =>
      let! n := get_prop child "name" in
      if is_string "artwork" n then Ok (Some child)
      else findArtWork rest
  end.

Definition getArtWork (manifest : t) : result jsval :=
  let! children := get_prop manifest "children" in
  match children with
  | None => Ok undefined
  | Some c => let! items := iterate c in findArtWork items
  end.

Fixpoint collectArtBoards (children : list json)
  : result (list ArtBoardIndex.t) :=
  match children with
  | [] => Ok []
  | child :: rest =>
      let! n := get_prop child "name" in
      if is_string "pasteboard" n then collectArtBoards rest
      else
        let! board := ArtBoardIndex.new child in
        if negb (ArtBoardIndex.isLoaded board) then collectArtBoards rest
        else let! boards := collectArtBoards rest in Ok (board :: boards)
  end.

Definition getArtBoards (manifest : t)
  : result (option (list ArtBoardIndex.t)) :=
  let! artWork := getArtWork manifest in
  match artWork with
  | None => Ok None
  | Some aw =>
      let! children := get_prop aw "children" in
      match children with
      | None => Ok None
      | Some c =>
          let! items := iterate c in
          let! boards := collectArtBoards items in
          Ok (Some boards)
      end
  end.

End Manifest.

(** ** ArtBoard *)

Module ArtBoard.

(** The [fonts] object of a page.  Assigning to the key ["__proto__"]
    runs the setter inherited from [Object.prototype]: no own property is
    created and the object now inherits from the assigned [FontData].
    From then on a key ["id"] that is not an own property resolves to the
    getter of [FontData], which has no setter, and assigning to it is a
    [TypeError] in the strict code of a class body; an own property ["id"]
    is written as any other. *)
Record fontsObject := mkFonts {
  own : props FontData.t;
  inherits_font : bool
}.

Definition empty : fontsObject := {| own := []; inherits_font := false |}.

Record t := mk {
  fonts : fontsObject;
  contents : json
}.

Definition new (data : text) : result t :=
  let! c := JSON_parse data in
  Ok {| fonts := empty; contents := c |}.

Definition isLoaded (this : t) : bool :=
  match contents this with JNull => false | _ => true end.

(** [this.fonts[key] = font]. *)
Definition fonts_put (key : string) (font : FontData.t) (fonts : fontsObject)
  : result fontsObject :=
  if String.eqb key "__proto__" then
    Ok {| own := own fonts; inherits_font := true |}
  else if inherits_font fonts && String.eqb key "id"
          && negb (has_own "id" (own fonts)) then Throw TypeError
  else Ok {| own := own_set key font (own fonts);
             inherits_font := inherits_font fonts |}.

(** [this.fonts[font.id] = font]. *)
Definition record (font : FontData.t) (fonts : fontsObject)
  : result fontsObject :=
  let! key := toString (FontData.id font) in
  fonts_put key font fonts.

(** The declaration an object carrying [fontFamily] is. *)
Definition inlineFont (obj : props json) : FontData.t :=
  FontData.new (own_get "fontFamily" obj) (own_get "fontStyle" obj)
               (own_get "postscriptName" obj).

(** The declaration the value of a [font] field is. *)
Definition nestedFont (v : json) : result FontData.t :=
  let! family := get_prop v "family" in
  let! style := get_prop v "style" in
  let! postscriptName := get_prop v "postscriptName" in
  Ok (FontData.new family style postscriptName).

Fixpoint findFonts (obj : json) (fonts : fontsObject) : result fontsObject :=
  match obj with
  | JArr items =>
      (fix forEach (l : list json) (fonts : fontsObject) :=
         match l with
         | [] => Ok fonts
         | item :: rest =>
             let! fonts := findFonts item fonts in forEach rest fonts
         end) items fonts
  | JObj o =>
      let! fonts :=
        match own_get "fontFamily" o with
        | Some _ => record (inlineFont o) fonts
        | None => Ok fonts
        end in
      (fix forEach (l : props json) (fonts : fontsObject) :=
         match l with
         | [] => Ok fonts
         | (k, v) :: rest =>
             let! fonts :=
               if String.eqb k "font" then
                 let! font := nestedFont v in record font fonts
               else Ok fonts in
             let! fonts := findFonts v fonts in
             forEach rest fonts
         end) o fonts
  | _ => Ok fonts
  end.

Definition updateFonts (this : t) : result t :=
  let! fonts :=
    if truthy (contents this) then findFonts (contents this) empty
    else Ok empty in
  Ok {| fonts := fonts; contents := contents this |}.

End ArtBoard.

(** ** Console output *)

Inductive console_line :=
| ManifestLoadFailed
| BoardLoadFailed (dataPath : string)
| Printed (s : string).

(** A computation that may print and may throw. *)
Definition io (A : Type) : Type := list console_line * result A.

Definition io_bind {A B} (m : io A) (f : A -> io B) : io B :=
  match m with
  | (out, Ok a) => let (out', r) := f a in ((out ++ out')%list, r)
  | (out, Throw e) => (out, Throw e)
  end.

Definition lift {A} (r : result A) : io A := ([], r).

Definition console_log (l : console_line) : io unit := ([l], Ok tt).

Notation "'do!' x ':=' e1 'in' e2" :=
  (io_bind e1 (fun x => e2))
  (at level 10, x name, e1 at level 100, e2 at level 200, only parsing).

(** ** XdFonts *)

Module XdFonts.

(** The callback of lines 215-223, for one key of the page's [fonts] (an
    own key, so never ["__proto__"]).  [fonts.hasOwnProperty] is the
    built-in method only while the catalog has no own key
    ["hasOwnProperty"]; once it has, the property is a [FontData] and the
    call is a [TypeError]. *)
Definition mergeFont (index : ArtBoardIndex.t) (key : string)
  (pageFont : FontData.t) (fonts : props FontData.t)
  : result (props FontData.t) :=
  if has_own "hasOwnProperty" fonts then Throw TypeError
  else match own_get key fonts with
       | Some font =>
           let! label := ArtBoardIndex.label index in
           Ok (replace_own key (FontData.addUsage label font) fonts)
       | None => Ok (own_set key pageFont fonts)
       end.

Fixpoint mergeFonts (index : ArtBoardIndex.t) (pageFonts : props FontData.t)
  (fonts : props FontData.t) : result (props FontData.t) :=
  match pageFonts with
  | [] => Ok fonts
  | (key, pageFont) :: rest =>
      let! fonts := mergeFont index key pageFont fonts in
      mergeFonts index rest fonts
  end.

(** One turn of the loop over the artboards (lines 206-223). *)
Definition processBoard (zip : archive) (index : ArtBoardIndex.t)
  (fonts : props FontData.t) : io (props FontData.t) :=
  do! dataPath := lift (ArtBoardIndex.getDataPath index) in
  let entry := getEntry zip dataPath in
  do! data := lift (getData entry) in
  do! artBoard := lift (ArtBoard.new data) in
  if negb (ArtBoard.isLoaded artBoard) then
    do! _ := console_log (BoardLoadFailed dataPath) in
    lift (Ok fonts)
  else
    do! artBoard := lift (ArtBoard.updateFonts artBoard) in
    lift (mergeFonts index (ArtBoard.own (ArtBoard.fonts artBoard)) fonts).

Fixpoint processBoards (zip : archive) (indices : list ArtBoardIndex.t)
  (fonts : props FontData.t) : io (props FontData.t) :=
  match indices with
  | [] => lift (Ok fonts)
  | index :: rest =>
      do! fonts := processBoard zip index fonts in
      processBoards zip rest fonts
  end.

Definition makeList (zip : archive) : io (props FontData.t) :=
  let fonts : props FontData.t := [] in
  let manifestEntry := getEntry zip "manifest" in
  do! data := lift (getData manifestEntry) in
  do! manifest := lift (Manifest.new data) in
  if negb (Manifest.isLoaded manifest) then
    do! _ := console_log ManifestLoadFailed in
    lift (Ok fonts)
  else
    do! indices := lift (Manifest.getArtBoards manifest) in
    match indices with
    | None => lift (Ok fonts)
    | Some indices => processBoards zip indices fonts
    end.

End XdFonts.

(** The top level: build the list from the archive the argument names, then
    print the block of every font. *)
Fixpoint printFonts (fonts : props FontData.t) : io unit :=
  match fonts with
  | [] => lift (Ok tt)
  | (_, font) :: rest =>
      do! block := lift (FontData.getUsages font) in
      do! _ := console_log (Printed block) in
      printFonts rest
  end.

Definition main (zip : archive) : io unit :=
  do! fonts := XdFonts.makeList zip in
  printFonts fonts.

(** ** Vocabulary of the properties *)

(** The entry [child] carries the label [n]: [child.name === n]. *)
Definition named (n : string) (child : json) : bool :=
  match get_prop child "name" with
  | Ok v => is_string n v
  | Throw _ => false
  end.

(** The font map of a page as [processBoard] obtains it before merging:
    [None] when the page is reported as not loaded. *)
Definition scanBoard (zip : archive) (index : ArtBoardIndex.t)
  : result (option (props FontData.t)) :=
  let! dataPath := ArtBoardIndex.getDataPath index in
  let! data := getData (getEntry zip dataPath) in
  let! artBoard := ArtBoard.new data in
  if negb (ArtBoard.isLoaded artBoard) then Ok None
  else let! artBoard := ArtBoard.updateFonts artBoard in
       Ok (Some (ArtBoard.own (ArtBoard.fonts artBoard))).

(** The entry under [key] in the font map of the first page, in enumeration
    order, whose font map has that key. *)
Fixpoint firstSeen (zip : archive) (indices : list ArtBoardIndex.t)
  (key : string) : option FontData.t :=
  match indices with
  | [] => None
  | index :: rest =>
      match scanBoard zip index with
      | Ok (Some pageFonts) =>
          match own_get key pageFonts with
          | Some font => Some font
          | None => firstSeen zip rest key
          end
      | _ => firstSeen zip rest key
      end
  end.

Definition absent_or_null (v : jsval) : Prop := v = undefined \/ v = Some JNull.

(** [grown e e']: [e'] is [e] with usage labels appended, nothing else
    changed. *)
Definition grown (e e' : FontData.t) : Prop :=
  FontData.name e' = FontData.name e /\
  FontData.style e' = FontData.style e /\
  FontData.postScriptName e' = FontData.postScriptName e /\
  exists more, FontData.usages e' = (FontData.usages e ++ more)%list.

(** The entry a key has once further declarations arrive: the one already
    in the catalog if there is one, the arriving one otherwise. *)
Definition earliest (old new : option FontData.t) : option FontData.t :=
  match old with
  | Some e => Some e
  | None => new
  end.

(** ** Sample archives *)

(** The document of the traversal example. *)
Definition traversal_document : json :=
  JObj [("a", JObj [("font", JObj [("family", JStr "Foo");
                                   ("style", JStr "Bold");
                                   ("postscriptName", JStr "Foo-Bold")])]);
        ("b", JArr [JObj [("fontFamily", JStr "Bar");
                          ("fontStyle", JNull);
                          ("postscriptName", JStr "Bar-Reg")]])].

Definition entry (n i p : string) : json :=
  JObj [("id", JStr i); ("name", JStr n); ("path", JStr p)].

Definition manifest_of (children : list json) : json :=
  JObj [("children",
         JArr [JObj [("name", JStr "resources")];
               JObj [("name", JStr "artwork");
                     ("children", JArr children)]])].

Definition agc (p : string) : string :=
  "artwork/" ++ p ++ "/graphics/graphicContent.agc".

(** Two pages, Home and About, after the pasteboard; both use the fonts of
    the traversal document. *)
Definition home_entry : json := entry "Home" "1" "artboard-1".
Definition about_entry : json := entry "About" "2" "artboard-2".

Definition home : ArtBoardIndex.t :=
  {| ArtBoardIndex.id := Some (JStr "1");
     ArtBoardIndex.name := Some (JStr "Home");
     ArtBoardIndex.path := Some (JStr "artboard-1");
     ArtBoardIndex.contents := home_entry |}.

Definition about : ArtBoardIndex.t :=
  {| ArtBoardIndex.id := Some (JStr "2");
     ArtBoardIndex.name := Some (JStr "About");
     ArtBoardIndex.path := Some (JStr "artboard-2");
     ArtBoardIndex.contents := about_entry |}.

Definition two_page_manifest : json :=
  manifest_of [entry "pasteboard" "0" "pasteboard"; home_entry; about_entry].

Definition two_pages : archive :=
  <["manifest" := Encodes two_page_manifest]>
    (<[agc "artboard-1" := Encodes traversal_document]>
       (<[agc "artboard-2" := Encodes traversal_document]> ∅)).

(** The same archive without the content entry of Home, and with a
    malformed one. *)
Definition home_missing : archive := delete (agc "artboard-1") two_pages.

Definition home_malformed : archive :=
  <[agc "artboard-1" := Malformed]> two_pages.

(** The font map of the traversal document. *)
Definition traversal_fonts : props FontData.t :=
  [("Foo-Bold", FontData.new (Some (JStr "Foo")) (Some (JStr "Bold"))
                             (Some (JStr "Foo-Bold")));
   ("Bar-Reg", FontData.new (Some (JStr "Bar")) (Some JNull)
                            (Some (JStr "Bar-Reg")))].


(** An object that declares the identity ["X"]. *)
Definition first_X : props json :=
  [("fontFamily", JStr "A"); ("postscriptName", JStr "X")].



(** A manifest that decodes to [null]. *)
Definition null_manifest : archive := <["manifest" := Encodes JNull]> ∅.

(** A manifest without an artwork root, and one whose root has no child. *)
Definition rootless : archive :=
  <["manifest" := Encodes (JObj [("children", JArr [])])]> ∅.

Definition childless : archive :=
  <["manifest" := Encodes (manifest_of [])]> ∅.

(** An artwork root with one child that is neither the pasteboard nor under
    an artboard path. *)
Definition notes_entry : json := entry "Notes" "7" "misc/notes".

Definition notes : ArtBoardIndex.t :=
  {| ArtBoardIndex.id := Some (JStr "7");
     ArtBoardIndex.name := Some (JStr "Notes");
     ArtBoardIndex.path := Some (JStr "misc/notes");
     ArtBoardIndex.contents := notes_entry |}.

(** Two fragments without a [postscriptName], one of each shape. *)
Definition anonymous_inline : props json :=
  [("fontFamily", JStr "Bar"); ("fontStyle", JStr "Italic")].
Definition anonymous_nested : json :=
  JObj [("family", JStr "Foo")].

Definition inline_anonymous : FontData.t := ArtBoard.inlineFont anonymous_inline.
Definition nested_anonymous : FontData.t :=
  FontData.new (Some (JStr "Foo")) undefined undefined.

Definition only_undefined (font : FontData.t) : ArtBoard.fontsObject :=
  {| ArtBoard.own := [("undefined", font)]; ArtBoard.inherits_font := false |}.

(** A document that holds both fragments, the inline one first. *)
Definition anonymous_document : json :=
  JArr [JObj anonymous_inline; JObj [("font", anonymous_nested)]].

(** The pasteboard entry of a manifest. *)
Definition pasteboard_entry : json := entry "pasteboard" "0" "pasteboard".

(** ** Vocabulary of the further properties *)

(** Induction over a decoded document, with the property available for
    every element of an array and every field value of an object. *)
Section JsonInduction.
Variable P : json -> Prop.
Hypothesis HNull : P JNull.
Hypothesis HBool : forall b, P (JBool b).
Hypothesis HNum : forall r, P (JNum r).
Hypothesis HStr : forall s, P (JStr s).
Hypothesis HArr : forall items, Forall P items -> P (JArr items).
Hypothesis HObj : forall o, Forall (fun kv => P (snd kv)) o -> P (JObj o).

Fixpoint json_induction (v : json) : P v :=
  match v with
  | JNull => HNull
  | JBool b => HBool b
  | JNum r => HNum r
  | JStr s => HStr s
  | JArr items =>
      HArr items
        ((fix all (l : list json) : Forall P l :=
            match l with
            | [] => List.Forall_nil P
            | x :: rest => List.Forall_cons P x rest (json_induction x) (all rest)
            end) items)
  | JObj o =>
      HObj o
        ((fix all (l : list (string * json))
            : Forall (fun kv => P (snd kv)) l :=
            match l with
            | [] => List.Forall_nil _
            | kv :: rest =>
                List.Forall_cons _ kv rest (json_induction (snd kv)) (all rest)
            end) o)
  end.
End JsonInduction.

(** [subvalue v doc]: the value [v] occurs in the document [doc], at any
    depth. *)
Inductive subvalue (v : json) : json -> Prop :=
| sub_here : subvalue v v
| sub_item x items : x ∈ items -> subvalue v x -> subvalue v (JArr items)
| sub_field k x o : (k, x) ∈ o -> subvalue v x -> subvalue v (JObj o).

(** [declared doc font]: some object of [doc] declares [font], either by
    carrying [fontFamily] itself or through one of its [font] fields. *)
Definition declared (doc : json) (font : FontData.t) : Prop :=
  (exists o, subvalue (JObj o) doc /\ own_get "fontFamily" o <> None /\
             font = ArtBoard.inlineFont o) \/
  (exists o v, subvalue (JObj o) doc /\ ("font", v) ∈ o /\
               ArtBoard.nestedFont v = Ok font).

(** The two steps [findFonts] takes on an object, named: the test of the
    object itself, then the loop over its fields. *)
Definition scanSelf (o : props json) (fonts : ArtBoard.fontsObject)
  : result ArtBoard.fontsObject :=
  match own_get "fontFamily" o with
  | Some _ => ArtBoard.record (ArtBoard.inlineFont o) fonts
  | None => Ok fonts
  end.

Fixpoint scanFields (fields : props json) (fonts : ArtBoard.fontsObject)
  : result ArtBoard.fontsObject :=
  match fields with
  | [] => Ok fonts
  | (k, v) :: rest =>
      let! fonts :=
        if String.eqb k "font" then
          let! font := ArtBoard.nestedFont v in ArtBoard.record font fonts
        else Ok fonts in
      let! fonts := ArtBoard.findFonts v fonts in
      scanFields rest fonts
  end.

(** [preserved I D doc]: the scan of [doc] keeps the property [I] of the
    font map, provided the declarations of [doc] all satisfy [D]. *)
Definition preserved (I : ArtBoard.fontsObject -> Prop)
  (D : FontData.t -> Prop) (doc : json) : Prop :=
  (forall font, declared doc font -> D font) ->
  forall fonts fonts',
    I fonts -> ArtBoard.findFonts doc fonts = Ok fonts' -> I fonts'.

(** The report block of a font whose name and style render as [n] and
    [st]: a heading, then one line for every usage. *)
Definition block (n st : string) (usages : list string) : string :=
  n ++ ":" ++ st ++ String "010" ""
    ++ String.concat "" (map (fun u => "  - " ++ u ++ String "010" "") usages).

(** A page font map as the scan leaves it: every entry is filed under the
    string of its identity, has no usage yet and a style that is neither
    [undefined] nor [null]. *)
Definition scanned_entry (kv : string * FontData.t) : Prop :=
  toString (FontData.id (snd kv)) = Ok (fst kv) /\
  FontData.usages (snd kv) = [] /\
  FontData.style (snd kv) <> undefined /\
  FontData.style (snd kv) <> Some JNull.

(** [usages_from indices font]: the usages of [font] are labels of pages
    among [indices], none of them twice. *)
Definition usages_from (indices : list ArtBoardIndex.t) (font : FontData.t)
  : Prop :=
  NoDup (FontData.usages font) /\
  forall l, l ∈ FontData.usages font ->
    exists index, index ∈ indices /\ ArtBoardIndex.label index = Ok l.

(** A catalog entry in good order: filed under the string of its identity,
    with a style that is neither [undefined] nor [null] and usages that are
    labels of pages among [indices]. *)
Definition catalog_entry (indices : list ArtBoardIndex.t)
  (kv : string * FontData.t) : Prop :=
  toString (FontData.id (snd kv)) = Ok (fst kv) /\
  FontData.style (snd kv) <> undefined /\
  FontData.style (snd kv) <> Some JNull /\
  usages_from indices (snd kv).

(** [labelled label key fonts]: the catalog has an entry under [key] and
    [label] is among its usages. *)
Definition labelled (label key : string) (fonts : props FontData.t) : Prop :=
  exists font, own_get key fonts = Some font /\ label ∈ FontData.usages font.

(** ** Lookup and update of own properties *)

Section OwnProperties.
Context {A : Type}.
Implicit Types (o : props A) (k : string) (v : A).

Lemma has_own_true k o : has_own k o = true <-> exists v, own_get k o = Some v.
Proof.
  unfold has_own. destruct (own_get k o); split; eauto; intros; try easy.
  destruct H; discriminate.
Qed.

Lemma has_own_false k o : has_own k o = false <-> own_get k o = None.
Proof. unfold has_own. destruct (own_get k o); split; easy. Qed.

Lemma own_get_None k o : own_get k o = None <-> k ∉ own_keys o.
Proof.
  induction o as [|[k' v'] o IH]; simpl.
  - split; [intros _; apply not_elem_of_nil | easy].
  - rewrite not_elem_of_cons. destruct (String.eqb_spec k' k) as [->|Hne].
    + split; [discriminate | intros [? _]; congruence].
    + rewrite IH. split; [intros; split; congruence | tauto].
Qed.

Lemma own_keys_replace_own k v o : own_keys (replace_own k v o) = own_keys o.
Proof.
  induction o as [|[k' v'] o IH]; simpl; [reflexivity|].
  destruct (String.eqb k' k); simpl; congruence.
Qed.

Lemma own_get_replace_own k k' v o :
  own_get k' (replace_own k v o) =
  if String.eqb k k' then match own_get k o with
                          | Some _ => Some v
                          | None => None
                          end
  else own_get k' o.
Proof.
  induction o as [|[k0 v0] o IH]; simpl.
  - destruct (String.eqb k k'); reflexivity.
  - destruct (String.eqb_spec k0 k) as [->|Hne]; simpl.
    + destruct (String.eqb_spec k k'); reflexivity.
    + rewrite IH. destruct (String.eqb_spec k k') as [->|Hne'].
      * destruct (String.eqb_spec k0 k'); [congruence | reflexivity].
      * reflexivity.
Qed.

Lemma replace_own_replace_own k v1 v2 o :
  replace_own k v2 (replace_own k v1 o) = replace_own k v2 o.
Proof.
  induction o as [|[k0 v0] o IH]; simpl; [reflexivity|].
  destruct (String.eqb_spec k0 k) as [->|Hne]; simpl.
  - rewrite String.eqb_refl. reflexivity.
  - destruct (String.eqb_spec k0 k); [congruence|]. rewrite IH. reflexivity.
Qed.

Lemma own_get_app k o1 o2 :
  own_get k (o1 ++ o2)%list =
  match own_get k o1 with Some v => Some v | None => own_get k o2 end.
Proof.
  induction o1 as [|[k0 v0] o1 IH]; simpl; [reflexivity|].
  destruct (String.eqb k0 k); auto.
Qed.

Lemma own_get_insert_index i k k' v o :
  own_get k o = None ->
  own_get k' (insert_index i k v o) =
  if String.eqb k k' then Some v else own_get k' o.
Proof.
  induction o as [|[k0 v0] o IH]; simpl; intros Hk.
  - reflexivity.
  - destruct (String.eqb_spec k0 k) as [->|Hne]; [discriminate|].
    destruct (array_index k0) as [j|]; [destruct (j <? i)%N|]; simpl.
    + rewrite IH by assumption.
      destruct (String.eqb_spec k k') as [->|Hne'].
      * destruct (String.eqb_spec k0 k'); [congruence | reflexivity].
      * reflexivity.
    + reflexivity.
    + reflexivity.
Qed.

Lemma own_get_insert_new k k' v o :
  own_get k o = None ->
  own_get k' (insert_new k v o) =
  if String.eqb k k' then Some v else own_get k' o.
Proof.
  intros Hk. unfold insert_new. destruct (array_index k).
  - apply own_get_insert_index, Hk.
  - rewrite own_get_app. simpl.
    destruct (String.eqb_spec k k') as [->|Hne].
    + rewrite Hk. reflexivity.
    + destruct (own_get k' o); reflexivity.
Qed.

(** Reading back an assignment. *)
Lemma own_get_own_set k k' v o :
  own_get k' (own_set k v o) =
  if String.eqb k k' then Some v else own_get k' o.
Proof.
  unfold own_set, has_own. destruct (own_get k o) eqn:Hk.
  - rewrite own_get_replace_own, Hk. reflexivity.
  - apply own_get_insert_new, Hk.
Qed.

Lemma replace_own_insert_index i k v1 v2 o :
  own_get k o = None ->
  replace_own k v2 (insert_index i k v1 o) = insert_index i k v2 o.
Proof.
  induction o as [|[k0 v0] o IH]; simpl; intros Hk.
  - rewrite String.eqb_refl. reflexivity.
  - destruct (String.eqb_spec k0 k) as [->|Hne]; [discriminate|].
    destruct (array_index k0) as [j|]; [destruct (j <? i)%N|]; simpl;
      rewrite ?String.eqb_refl; try reflexivity.
    destruct (String.eqb_spec k0 k); [congruence|]. rewrite IH; auto.
Qed.

Lemma replace_own_app_new k v1 v2 o :
  own_get k o = None ->
  replace_own k v2 (o ++ [(k, v1)])%list = (o ++ [(k, v2)])%list.
Proof.
  induction o as [|[k0 v0] o IH]; simpl; intros Hk.
  - rewrite String.eqb_refl. reflexivity.
  - destruct (String.eqb_spec k0 k) as [->|Hne]; [discriminate|].
    rewrite IH; auto.
Qed.

(** Assigning twice to a key leaves what the second assignment alone
    leaves: one property, holding the later value. *)
Lemma own_set_own_set k v1 v2 o :
  own_set k v2 (own_set k v1 o) = own_set k v2 o.
Proof.
  unfold own_set at 1.
  assert (Hh : has_own k (own_set k v1 o) = true).
  { apply has_own_true. exists v1. rewrite own_get_own_set, String.eqb_refl.
    reflexivity. }
  rewrite Hh. unfold own_set, has_own.
  destruct (own_get k o) eqn:Hk.
  - apply replace_own_replace_own.
  - unfold insert_new. destruct (array_index k).
    + apply replace_own_insert_index, Hk.
    + apply replace_own_app_new, Hk.
Qed.

Lemma own_keys_insert_index i k v o :
  own_keys (insert_index i k v o) ≡ₚ k :: own_keys o.
Proof.
  induction o as [|[k0 v0] o IH]; simpl; [reflexivity|].
  destruct (array_index k0) as [j|]; [destruct (j <? i)%N|]; simpl;
    try reflexivity.
  rewrite IH. apply Permutation_swap.
Qed.

Lemma own_keys_insert_new k v o :
  own_keys (insert_new k v o) ≡ₚ k :: own_keys o.
Proof.
  unfold insert_new. destruct (array_index k).
  - apply own_keys_insert_index.
  - unfold own_keys. rewrite map_app. simpl.
    symmetry. apply Permutation_cons_append.
Qed.

(** An assignment never duplicates a key. *)
Lemma own_set_NoDup k v o :
  NoDup (own_keys o) -> NoDup (own_keys (own_set k v o)).
Proof.
  intros Hnd. unfold own_set. destruct (has_own k o) eqn:Hh.
  - rewrite own_keys_replace_own. exact Hnd.
  - rewrite own_keys_insert_new. apply NoDup_cons. split; [|exact Hnd].
    apply own_get_None, has_own_false, Hh.
Qed.

(** The keys after assigning to a key the object already has. *)
Lemma own_keys_own_set_old k v o :
  has_own k o = true -> own_keys (own_set k v o) = own_keys o.
Proof. intros Hh. unfold own_set. rewrite Hh. apply own_keys_replace_own. Qed.

End OwnProperties.

(** ** Aggregation *)

Lemma grown_refl e : grown e e.
Proof. repeat split. exists []. symmetry. apply app_nil_r. Qed.

Lemma grown_trans e1 e2 e3 : grown e1 e2 -> grown e2 e3 -> grown e1 e3.
Proof.
  intros (Hn & Hs & Hp & m & Hu) (Hn' & Hs' & Hp' & m' & Hu').
  repeat split; try congruence.
  exists (m ++ m')%list. rewrite Hu', Hu. symmetry. apply app_assoc.
Qed.

Lemma grown_addUsage label e : grown e (FontData.addUsage label e).
Proof.
  unfold FontData.addUsage.
  destruct (existsb _ _); [apply grown_refl|].
  repeat split. exists [label]. reflexivity.
Qed.

Lemma option_grown_refl (o : option FontData.t) : option_Forall2 grown o o.
Proof. destruct o; constructor. apply grown_refl. Qed.

Lemma option_grown_trans (o1 o2 o3 : option FontData.t) :
  option_Forall2 grown o1 o2 -> option_Forall2 grown o2 o3 ->
  option_Forall2 grown o1 o3.
Proof.
  intros H12 H23. destruct H12; inversion H23; subst; constructor.
  eapply grown_trans; eauto.
Qed.

(** One key of a page: a key the catalog has keeps its entry, which only
    grows; a new key enters with the page's declaration as it is. *)
Lemma mergeFont_spec index key pageFont fonts fonts' :
  XdFonts.mergeFont index key pageFont fonts = Ok fonts' ->
  forall k,
    option_Forall2 grown
      (earliest (own_get k fonts)
                (if String.eqb key k then Some pageFont else None))
      (own_get k fonts').
Proof.
  unfold XdFonts.mergeFont. destruct (has_own "hasOwnProperty" fonts);
    [discriminate|].
  destruct (own_get key fonts) as [font|] eqn:Hkey.
  - destruct (ArtBoardIndex.label index) as [label|]; [|discriminate].
    intros [= <-] k. rewrite own_get_replace_own, Hkey.
    destruct (String.eqb_spec key k) as [<-|Hne].
    + rewrite Hkey. simpl. constructor. apply grown_addUsage.
    + destruct (own_get k fonts); simpl; constructor. apply grown_refl.
  - intros [= <-] k. rewrite own_get_own_set.
    destruct (String.eqb_spec key k) as [<-|Hne].
    + rewrite Hkey. simpl. constructor. apply grown_refl.
    + destruct (own_get k fonts); simpl; constructor. apply grown_refl.
Qed.

Lemma mergeFont_NoDup index key pageFont fonts fonts' :
  XdFonts.mergeFont index key pageFont fonts = Ok fonts' ->
  NoDup (own_keys fonts) -> NoDup (own_keys fonts').
Proof.
  unfold XdFonts.mergeFont. destruct (has_own "hasOwnProperty" fonts);
    [discriminate|].
  destruct (own_get key fonts) as [font|] eqn:Hkey.
  - destruct (ArtBoardIndex.label index) as [label|]; [|discriminate].
    intros [= <-]. rewrite own_keys_replace_own. auto.
  - intros [= <-]. apply own_set_NoDup.
Qed.

Lemma earliest_assoc (a b c : option FontData.t) :
  earliest (earliest a b) c = earliest a (earliest b c).
Proof. destruct a; reflexivity. Qed.

Lemma earliest_grown (a a' b : option FontData.t) :
  option_Forall2 grown a a' ->
  option_Forall2 grown (earliest a b) (earliest a' b).
Proof. intros H. destruct H; simpl; [constructor; auto | apply option_grown_refl]. Qed.

(** A whole page font map. *)
Lemma mergeFonts_spec index pageFonts : forall fonts fonts',
  XdFonts.mergeFonts index pageFonts fonts = Ok fonts' ->
  forall k,
    option_Forall2 grown (earliest (own_get k fonts) (own_get k pageFonts))
                   (own_get k fonts').
Proof.
  induction pageFonts as [|[key pageFont] rest IH]; simpl; intros fonts fonts'.
  - intros [= <-] k. destruct (own_get k fonts); simpl; constructor.
    apply grown_refl.
  - destruct (XdFonts.mergeFont index key pageFont fonts) as [fonts1|] eqn:H1;
      [|discriminate].
    intros Hrest k.
    eapply option_grown_trans; [|apply (IH _ _ Hrest k)].
    replace (if String.eqb key k then Some pageFont else own_get k rest)
      with (earliest (if String.eqb key k then Some pageFont else None)
                     (own_get k rest))
      by (destruct (String.eqb key k); reflexivity).
    rewrite <- earliest_assoc. apply earliest_grown.
    apply (mergeFont_spec _ _ _ _ _ H1).
Qed.

Lemma mergeFonts_NoDup index pageFonts : forall fonts fonts',
  XdFonts.mergeFonts index pageFonts fonts = Ok fonts' ->
  NoDup (own_keys fonts) -> NoDup (own_keys fonts').
Proof.
  induction pageFonts as [|[key pageFont] rest IH]; simpl; intros fonts fonts'.
  - intros [= <-]. auto.
  - destruct (XdFonts.mergeFont index key pageFont fonts) as [fonts1|] eqn:H1;
      [|discriminate].
    intros Hrest Hnd. eapply IH; eauto. eapply mergeFont_NoDup; eauto.
Qed.

(** A turn of the loop either leaves the catalog alone (the page is reported
    as not loaded) or merges the page's font map. *)
Lemma processBoard_Ok zip index fonts out fonts' :
  XdFonts.processBoard zip index fonts = (out, Ok fonts') ->
  match scanBoard zip index with
  | Ok (Some pageFonts) => XdFonts.mergeFonts index pageFonts fonts = Ok fonts'
  | Ok None => fonts' = fonts
  | Throw _ => False
  end.
Proof.
  unfold XdFonts.processBoard, scanBoard, lift, io_bind, console_log.
  destruct (ArtBoardIndex.getDataPath index) as [dataPath|]; [|discriminate].
  destruct (getData (getEntry zip dataPath)) as [data|]; [|discriminate].
  destruct (ArtBoard.new data) as [artBoard|]; [|discriminate].
  destruct (negb (ArtBoard.isLoaded artBoard)).
  - simpl. intros [= _ <-]. reflexivity.
  - destruct (ArtBoard.updateFonts artBoard) as [artBoard'|]; [|discriminate].
    simpl. intros [= _ H]. exact H.
Qed.

Lemma processBoards_spec zip indices : forall fonts out fonts',
  XdFonts.processBoards zip indices fonts = (out, Ok fonts') ->
  (NoDup (own_keys fonts) -> NoDup (own_keys fonts')) /\
  forall k,
    option_Forall2 grown
      (earliest (own_get k fonts) (firstSeen zip indices k))
      (own_get k fonts').
Proof.
  induction indices as [|index rest IH]; simpl; intros fonts out fonts'.
  - unfold lift. intros [= _ <-]. split; [auto|].
    intros k. destruct (own_get k fonts); simpl; constructor. apply grown_refl.
  - unfold io_bind at 1.
    destruct (XdFonts.processBoard zip index fonts) as [out1 [fonts1|]] eqn:H1;
      [|discriminate].
    destruct (XdFonts.processBoards zip rest fonts1) as [out2 r2] eqn:H2.
    intros [= _ ->].
    apply processBoard_Ok in H1. destruct (IH _ _ _ H2) as [Hnd Hget].
    destruct (scanBoard zip index) as [[pageFonts|]|]; [| |contradiction].
    + split.
      * intros Hn. apply Hnd. eapply mergeFonts_NoDup; eauto.
      * intros k. eapply option_grown_trans; [|apply Hget].
        replace (match own_get k pageFonts with
                 | Some font => Some font
                 | None => firstSeen zip rest k
                 end)
          with (earliest (own_get k pageFonts) (firstSeen zip rest k))
          by reflexivity.
        rewrite <- earliest_assoc. apply earliest_grown.
        apply (mergeFonts_spec _ _ _ _ H1).
    + subst fonts1. split; [exact Hnd | exact Hget].
Qed.

(** ** Enumeration of the pages *)

Lemma ArtBoardIndex_new_contents child board :
  ArtBoardIndex.new child = Ok board -> ArtBoardIndex.contents board = child.
Proof.
  unfold ArtBoardIndex.new.
  destruct (get_prop child "id"); [|discriminate].
  destruct (get_prop child "name"); [|discriminate].
  destruct (get_prop child "path"); [|discriminate].
  intros [= <-]. reflexivity.
Qed.

Lemma ArtBoardIndex_new_total child :
  child <> JNull -> exists board, ArtBoardIndex.new child = Ok board.
Proof.
  intros Hc. unfold ArtBoardIndex.new.
  destruct child; try congruence; simpl; eauto.
Qed.

Lemma named_get_prop n child v :
  get_prop child "name" = Ok v -> named n child = is_string n v.
Proof. unfold named. intros ->. reflexivity. Qed.

(** Over entries none of which is [null] the loop of [getArtBoards] runs to
    its end and keeps, in order, the descriptor of every child that is not
    named [pasteboard]. *)
Lemma collectArtBoards_filter children :
  Forall (fun c => c <> JNull) children ->
  exists boards,
    Manifest.collectArtBoards children = Ok boards /\
    Forall2 (fun board c => ArtBoardIndex.new c = Ok board) boards
            (List.filter (fun c => negb (named "pasteboard" c)) children).
Proof.
  induction 1 as [|child rest Hc _ IH]; simpl.
  - exists []. split; [reflexivity | constructor].
  - destruct IH as (boards & Hrest & Hall).
    destruct (get_prop child "name") as [n|] eqn:Hn;
      [|destruct child; simpl in Hn; congruence].
    rewrite (named_get_prop _ _ _ Hn).
    destruct (is_string "pasteboard" n); simpl.
    + exists boards. split; assumption.
    + destruct (ArtBoardIndex_new_total child Hc) as [board Hb].
      rewrite Hb. unfold ArtBoardIndex.isLoaded.
      rewrite (ArtBoardIndex_new_contents _ _ Hb).
      destruct child; try congruence; simpl; rewrite Hrest;
        (exists (board :: boards); split; [reflexivity|]);
        constructor; assumption.
Qed.

Lemma getArtBoards_filter manifest artWork children :
  Manifest.getArtWork manifest = Ok (Some artWork) ->
  get_prop artWork "children" = Ok (Some (JArr children)) ->
  Forall (fun c => c <> JNull) children ->
  exists boards,
    Manifest.getArtBoards manifest = Ok (Some boards) /\
    Forall2 (fun board c => ArtBoardIndex.new c = Ok board) boards
            (List.filter (fun c => negb (named "pasteboard" c)) children).
Proof.
  intros Haw Hch Hall. unfold Manifest.getArtBoards. rewrite Haw, Hch. simpl.
  destruct (collectArtBoards_filter children Hall) as (boards & -> & HF).
  exists boards. split; [reflexivity | exact HF].
Qed.

Lemma Forall2_new_contents boards children :
  Forall2 (fun board c => ArtBoardIndex.new c = Ok board) boards children ->
  map ArtBoardIndex.contents boards = children.
Proof.
  induction 1 as [|board c boards children Hb _ IH]; simpl; [reflexivity|].
  rewrite IH, (ArtBoardIndex_new_contents _ _ Hb). reflexivity.
Qed.

(** ** The scan of a page *)

(** C5. A font fragment whose style field is absent or [null] yields a
    declaration whose style is the empty string, in both shapes: the inline
    one (an object carrying [fontFamily], style read from [fontStyle]) and
    the nested one (the value of a [font] field, style read from [style]).
    No declaration ever has an [undefined] or [null] style. *)
Theorem null_style_normalized :
  (forall obj : props json,
      absent_or_null (own_get "fontStyle" obj) ->
      FontData.style (ArtBoard.inlineFont obj) = Some (JStr "")) /\
  (forall (v : json) (st : jsval),
      get_prop v "style" = Ok st -> absent_or_null st ->
      exists font, ArtBoard.nestedFont v = Ok font /\
                   FontData.style font = Some (JStr "")) /\
  (forall n st ps : jsval,
      FontData.style (FontData.new n st ps) <> undefined /\
      FontData.style (FontData.new n st ps) <> Some JNull).
Proof.
  split; [|split].
  - intros obj [H|H]; unfold ArtBoard.inlineFont, FontData.new; simpl;
      rewrite H; reflexivity.
  - intros v st Hst Habs. unfold ArtBoard.nestedFont.
    destruct v; try discriminate; simpl in *; injection Hst as <-;
      (eexists; split; [reflexivity|]);
      destruct Habs as [H|H]; simpl; try rewrite H; reflexivity.
  - intros n st ps. destruct st as [[]|]; simpl; split; discriminate.
Qed.

(** The inline fragment of the traversal document and a nested fragment
    without a style. *)
Lemma null_style_normalized_witness :
  FontData.style
    (ArtBoard.inlineFont [("fontFamily", JStr "Bar"); ("fontStyle", JNull);
                          ("postscriptName", JStr "Bar-Reg")])
  = Some (JStr "") /\
  exists font, ArtBoard.nestedFont anonymous_nested = Ok font /\
               FontData.style font = Some (JStr "").
Proof.
  destruct null_style_normalized as (Hinline & Hnested & _). split.
  - apply Hinline. right. reflexivity.
  - apply (Hnested anonymous_nested None); [reflexivity | left; reflexivity].
Defined.

(** C6. Scanning the traversal document gives a page font map with exactly
    two entries, keyed ["Foo-Bold"] and ["Bar-Reg"], and the style of the
    second is the empty string. *)
Theorem traversal_document_fonts :
  exists artBoard artBoard',
    ArtBoard.new (Encodes traversal_document) = Ok artBoard /\
    ArtBoard.updateFonts artBoard = Ok artBoard' /\
    own_keys (ArtBoard.own (ArtBoard.fonts artBoard')) =
      ["Foo-Bold"; "Bar-Reg"] /\
    FontData.style <$> own_get "Bar-Reg" (ArtBoard.own (ArtBoard.fonts artBoard'))
      = Some (Some (JStr "")).
Proof.
  eexists. eexists. split; [reflexivity|]. split; [reflexivity|].
  split; reflexivity.
Qed.

(** ** The manifest *)




(** C9, as stated, fails: an enumerated entry need not have a path under
    the page-type marker. *)
Lemma unprefixed_entry_enumerated :
  ~ (forall manifest boards board,
       Manifest.getArtBoards manifest = Ok (Some boards) ->
       board ∈ boards ->
       ArtBoardIndex.isArtBoard board = Ok true).
Proof.
  intros H.
  specialize (H (manifest_of [notes_entry]) [notes] notes eq_refl
                (list_elem_of_here _ _)).
  discriminate H.
Qed.

(** C9, amended. The kind of a descriptor whose path is a string is whether
    that string starts with [artboard]; the enumeration does not consult it.
    Over children none of which is [null] it keeps, in order, exactly the
    children that are not named [pasteboard]: none named [pasteboard] is
    enumerated, and every other child is, whatever its path. *)
Theorem kind_not_consulted (manifest artWork : json) (children : list json) :
  Manifest.getArtWork manifest = Ok (Some artWork) ->
  get_prop artWork "children" = Ok (Some (JArr children)) ->
  Forall (fun c => c <> JNull) children ->
  (forall board p,
      ArtBoardIndex.path board = Some (JStr p) ->
      ArtBoardIndex.isArtBoard board = Ok (String.prefix "artboard" p)) /\
  exists boards,
    Manifest.getArtBoards manifest = Ok (Some boards) /\
    map ArtBoardIndex.contents boards
      = List.filter (fun c => negb (named "pasteboard" c)) children /\
    (forall board, board ∈ boards ->
       named "pasteboard" (ArtBoardIndex.contents board) = false) /\
    (forall c, c ∈ children -> named "pasteboard" c = false ->
       exists board, board ∈ boards /\ ArtBoardIndex.contents board = c).
Proof.
  intros Haw Hch Hall. split.
  - intros board p Hp. unfold ArtBoardIndex.isArtBoard. rewrite Hp. reflexivity.
  - destruct (getArtBoards_filter _ _ _ Haw Hch Hall) as (boards & Hb & HF).
    exists boards. split; [exact Hb|].
    pose proof (Forall2_new_contents _ _ HF) as Hmap.
    split; [exact Hmap|]. split.
    + intros board Hin.
      assert (Hc : ArtBoardIndex.contents board
                   ∈ map ArtBoardIndex.contents boards).
      { apply list_elem_of_In, in_map, list_elem_of_In, Hin. }
      rewrite Hmap in Hc. apply list_elem_of_In, filter_In in Hc.
      destruct Hc as [_ Hc]. apply negb_true_iff, Hc.
    + intros c Hin Hn.
      assert (Hc : c ∈ map ArtBoardIndex.contents boards).
      { rewrite Hmap.
        apply list_elem_of_In, filter_In. split; [apply list_elem_of_In, Hin|].
        rewrite Hn. reflexivity. }
      apply list_elem_of_In, in_map_iff in Hc. destruct Hc as (b & Hbc & Hbin).
      exists b. split; [apply list_elem_of_In, Hbin | exact Hbc].
Qed.

(** A pasteboard followed by the entry Notes, whose path is [misc/notes]:
    Notes alone is enumerated, and its kind is not a page. *)
Lemma kind_not_consulted_witness :
  ArtBoardIndex.isArtBoard notes = Ok false /\
  exists boards,
    Manifest.getArtBoards (manifest_of [pasteboard_entry; notes_entry])
      = Ok (Some boards) /\
    map ArtBoardIndex.contents boards = [notes_entry].
Proof.
  destruct (kind_not_consulted (manifest_of [pasteboard_entry; notes_entry])
              (JObj [("name", JStr "artwork");
                     ("children", JArr [pasteboard_entry; notes_entry])])
              [pasteboard_entry; notes_entry])
    as (Hkind & boards & Hb & Hmap & _).
  - reflexivity.
  - reflexivity.
  - repeat constructor; discriminate.
  - split; [apply (Hkind notes "misc/notes"); reflexivity|].
    exists boards. split; [exact Hb | exact Hmap].
Defined.

(** ** The run *)

(** C7, as stated, fails: a manifest that is found not loaded is reported
    on the console before the run ends. *)
Lemma unloaded_manifest_is_reported :
  ~ (forall zip manifest,
       getEntry zip "manifest" = Some (Encodes manifest) ->
       Manifest.isLoaded manifest = false ->
       main zip = ([], Ok tt)).
Proof.
  intros H. specialize (H null_manifest JNull eq_refl eq_refl).
  discriminate H.
Qed.

(** C7, amended. A manifest that decodes to [null] is found not loaded: the
    run prints the manifest diagnostic, and nothing else, over an empty
    catalog.  When the manifest is loaded and its page list is absent or
    empty, the run prints nothing over an empty catalog.  Neither run
    throws. *)
Theorem empty_runs (zip : archive) (manifest : json) :
  getEntry zip "manifest" = Some (Encodes manifest) ->
  (Manifest.isLoaded manifest = false ->
   XdFonts.makeList zip = ([ManifestLoadFailed], Ok []) /\
   main zip = ([ManifestLoadFailed], Ok tt)) /\
  (Manifest.isLoaded manifest = true ->
   Manifest.getArtBoards manifest = Ok None \/
   Manifest.getArtBoards manifest = Ok (Some []) ->
   XdFonts.makeList zip = ([], Ok []) /\ main zip = ([], Ok tt)).
Proof.
  intros Hentry.
  assert (Hnull : Manifest.isLoaded manifest = false ->
                  XdFonts.makeList zip = ([ManifestLoadFailed], Ok [])).
  { intros Hl. unfold XdFonts.makeList. rewrite Hentry. simpl.
    rewrite Hl. reflexivity. }
  assert (Hnone : Manifest.isLoaded manifest = true ->
                  Manifest.getArtBoards manifest = Ok None \/
                  Manifest.getArtBoards manifest = Ok (Some []) ->
                  XdFonts.makeList zip = ([], Ok [])).
  { intros Hl Hb. unfold XdFonts.makeList. rewrite Hentry. simpl.
    rewrite Hl. simpl. destruct Hb as [-> | ->]; reflexivity. }
  split.
  - intros Hl. split; [auto|]. unfold main. rewrite (Hnull Hl). reflexivity.
  - intros Hl Hb. split; [auto|]. unfold main. rewrite (Hnone Hl Hb).
    reflexivity.
Qed.

(** A [null] manifest, a manifest without an artwork root, and an artwork
    root without children. *)
Lemma empty_runs_witness :
  main null_manifest = ([ManifestLoadFailed], Ok tt) /\
  main rootless = ([], Ok tt) /\
  main childless = ([], Ok tt).
Proof.
  split; [|split].
  - apply (empty_runs null_manifest JNull); reflexivity.
  - apply (empty_runs rootless (JObj [("children", JArr [])]));
      [reflexivity | reflexivity | left; reflexivity].
  - apply (empty_runs childless (manifest_of []));
      [reflexivity | reflexivity | right; reflexivity].
Defined.

(** C2. With the content entry of Home missing from the archive, the run
    throws at Home and the fonts of About, which scans well, never reach a
    catalog; a malformed entry ends the run the same way. *)
Theorem missing_page_aborts_run :
  XdFonts.makeList home_missing = ([], Throw TypeError) /\
  XdFonts.makeList home_malformed = ([], Throw SyntaxError) /\
  Manifest.getArtBoards two_page_manifest = Ok (Some [home; about]) /\
  scanBoard home_missing about = Ok (Some traversal_fonts) /\
  scanBoard home_malformed about = Ok (Some traversal_fonts).
Proof. repeat split; vm_compute; reflexivity. Qed.

(** ** The catalog *)

(** C1. Home and About both use the font ["Foo-Bold"], and the catalog
    records About alone: the page that introduces a font is never added to
    its usages. *)
Theorem first_page_label_missing :
  Manifest.getArtBoards two_page_manifest = Ok (Some [home; about]) /\
  scanBoard two_pages home = Ok (Some traversal_fonts) /\
  scanBoard two_pages about = Ok (Some traversal_fonts) /\
  ArtBoardIndex.label home = Ok "Home [1]" /\
  ArtBoardIndex.label about = Ok "About [2]" /\
  exists fonts,
    XdFonts.makeList two_pages = ([], Ok fonts) /\
    FontData.usages <$> own_get "Foo-Bold" fonts = Some ["About [2]"].
Proof.
  repeat split; try (vm_compute; reflexivity).
  eexists. split; vm_compute; reflexivity.
Qed.

(** C4. Merging the font map of Home into an empty catalog once leaves
    ["Foo-Bold"] with no usage; merging it a second time leaves it with
    one. *)
Theorem second_merge_adds_label :
  exists once twice,
    XdFonts.mergeFonts home traversal_fonts [] = Ok once /\
    XdFonts.mergeFonts home traversal_fonts once = Ok twice /\
    FontData.usages <$> own_get "Foo-Bold" once = Some [] /\
    FontData.usages <$> own_get "Foo-Bold" twice = Some ["Home [1]"].
Proof. eexists. eexists. repeat split; vm_compute; reflexivity. Qed.

(** ** Further properties: FontData *)

Lemma existsb_eqb_elem label (l : list string) :
  existsb (String.eqb label) l = true <-> label ∈ l.
Proof.
  rewrite existsb_exists. split.
  - intros (x & Hin & Hx). apply String.eqb_eq in Hx. subst.
    apply list_elem_of_In, Hin.
  - intros Hin. exists label. split; [apply list_elem_of_In, Hin|].
    apply String.eqb_refl.
Qed.

(** X1. After [addUsage] the label is among the usages, the usages there
    were are still there in their order, at the front, and adding the same
    label again changes nothing. *)
Theorem addUsage_idempotent (label : string) (this : FontData.t) :
  label ∈ FontData.usages (FontData.addUsage label this) /\
  (exists more, FontData.usages (FontData.addUsage label this)
                = (FontData.usages this ++ more)%list) /\
  FontData.addUsage label (FontData.addUsage label this)
    = FontData.addUsage label this.
Proof.
  assert (Hin : label ∈ FontData.usages (FontData.addUsage label this)).
  { unfold FontData.addUsage.
    destruct (existsb (String.eqb label) (FontData.usages this)) eqn:He.
    - apply existsb_eqb_elem, He.
    - simpl. apply elem_of_app. right. apply list_elem_of_here. }
  split; [exact Hin|]. split.
  - destruct (grown_addUsage label this) as (_ & _ & _ & Hmore). exact Hmore.
  - apply existsb_eqb_elem in Hin. unfold FontData.addUsage at 1.
    rewrite Hin. reflexivity.
Qed.

(** X2. [addUsage] keeps a list of usages free of duplicates, and grows it
    by at most the one label. *)
Theorem addUsage_NoDup (label : string) (this : FontData.t) :
  NoDup (FontData.usages this) ->
  NoDup (FontData.usages (FontData.addUsage label this)) /\
  forall l, l ∈ FontData.usages (FontData.addUsage label this) ->
            l = label \/ l ∈ FontData.usages this.
Proof.
  intros Hnd. unfold FontData.addUsage.
  destruct (existsb (String.eqb label) (FontData.usages this)) eqn:He.
  - split; [exact Hnd | auto].
  - simpl. split.
    + apply NoDup_app. split; [exact Hnd|]. split.
      * intros x Hx Hx'. apply list_elem_of_singleton in Hx'. subst x.
        apply existsb_eqb_elem in Hx. congruence.
      * apply NoDup_singleton.
    + intros l Hl. apply elem_of_app in Hl. destruct Hl as [Hl|Hl]; [auto|].
      apply list_elem_of_singleton in Hl. auto.
Qed.

(** Two labels, one of them twice. *)
Lemma addUsage_NoDup_witness :
  NoDup (FontData.usages
           (FontData.addUsage "Home [1]"
              (FontData.addUsage "About [2]"
                 (FontData.addUsage "Home [1]" nested_anonymous)))).
Proof.
  apply addUsage_NoDup. apply addUsage_NoDup. apply addUsage_NoDup.
  simpl. constructor.
Defined.

Lemma string_app_assoc (a b c : string) : (a ++ b) ++ c = a ++ (b ++ c).
Proof.
  induction a as [|x a IH]; [reflexivity|].
  change (String x ((a ++ b) ++ c) = String x (a ++ (b ++ c))).
  rewrite IH. reflexivity.
Qed.

Lemma string_app_nil_r (a : string) : a ++ "" = a.
Proof.
  induction a as [|x a IH]; [reflexivity|].
  change (String x (a ++ "") = String x a). rewrite IH. reflexivity.
Qed.

Lemma fold_left_block (usages : list string) : forall acc,
  fold_left (fun r usage => r ++ "  - " ++ usage ++ String "010" "")
            usages acc
  = acc ++ String.concat ""
             (map (fun u => "  - " ++ u ++ String "010" "") usages).
Proof.
  induction usages as [|u rest IH]; intros acc.
  - simpl. symmetry. apply string_app_nil_r.
  - cbn [fold_left map]. rewrite IH, string_app_assoc. f_equal.
    destruct rest as [|u' rest'].
    + cbn [map String.concat]. apply string_app_nil_r.
    + reflexivity.
Qed.

Lemma getUsages_strings (this : FontData.t) (n st : string) :
  FontData.name this = Some (JStr n) ->
  FontData.style this = Some (JStr st) ->
  FontData.getUsages this = Ok (block n st (FontData.usages this)).
Proof.
  intros Hn Hs. unfold FontData.getUsages, block. rewrite Hn, Hs. simpl.
  rewrite fold_left_block, !string_app_assoc. reflexivity.
Qed.

(** X3. The report block of a font whose name and style are strings is the
    line [name:style] followed, in order, by one line ["  - " label] for
    every usage; no conversion can fail there. *)
Theorem getUsages_block (this : FontData.t) (n st : string) :
  FontData.name this = Some (JStr n) ->
  FontData.style this = Some (JStr st) ->
  FontData.getUsages this = Ok (block n st (FontData.usages this)).
Proof.
  intros Hn Hs. unfold FontData.getUsages. rewrite Hn, Hs. simpl.
  rewrite fold_left_block. unfold block. rewrite !string_app_assoc.
  reflexivity.
Qed.

Lemma getUsages_block_witness :
  FontData.getUsages
    (FontData.addUsage "About [2]"
       (FontData.new (Some (JStr "Foo")) (Some (JStr "Bold"))
                     (Some (JStr "Foo-Bold"))))
  = Ok (block "Foo" "Bold" ["About [2]"]).
Proof. apply getUsages_block; reflexivity. Defined.

(** ** Further properties: ArtBoardIndex *)

Lemma string_length_app (a b : string) :
  String.length (a ++ b) = String.length a + String.length b.
Proof.
  induction a as [|x a IH]; [reflexivity|].
  change (S (String.length (a ++ b)) = S (String.length a + String.length b)).
  rewrite IH. reflexivity.
Qed.

Lemma string_app_inj_r (c : string) : forall a b, a ++ c = b ++ c -> a = b.
Proof.
  induction a as [|x a IH]; intros [|y b] H.
  - reflexivity.
  - apply (f_equal String.length) in H.
    change (String y b ++ c) with (String y (b ++ c)) in H.
    change ("" ++ c) with c in H. simpl in H. rewrite string_length_app in H.
    lia.
  - apply (f_equal String.length) in H.
    change (String x a ++ c) with (String x (a ++ c)) in H.
    change ("" ++ c) with c in H. simpl in H. rewrite string_length_app in H.
    lia.
  - change (String x (a ++ c) = String y (b ++ c)) in H.
    injection H as -> H. f_equal. apply IH, H.
Qed.

Lemma prefix_app (s1 : string) : forall s2,
  String.prefix s1 s2 = true <-> exists rest, s2 = s1 ++ rest.
Proof.
  induction s1 as [|x s1 IH]; intros s2.
  - split; [intros _; exists s2; reflexivity|]. intros _.
    destruct s2; reflexivity.
  - destruct s2 as [|y s2]; simpl.
    + split; [discriminate | intros [rest H]; discriminate H].
    + destruct (ascii_dec x y) as [->|Hne].
      * rewrite IH. split; intros [rest H]; exists rest.
        -- change (String y s2 = String y (s1 ++ rest)). rewrite H. reflexivity.
        -- change (String y s2 = String y (s1 ++ rest)) in H. congruence.
      * split; [discriminate|]. intros [rest H].
        change (String y s2 = String x (s1 ++ rest)) in H. congruence.
Qed.

(** X4. Two descriptors with different string paths have different content
    paths: no two such pages read the same archive entry. *)
Theorem getDataPath_injective (b1 b2 : ArtBoardIndex.t) (p1 p2 : string) :
  ArtBoardIndex.path b1 = Some (JStr p1) ->
  ArtBoardIndex.path b2 = Some (JStr p2) ->
  ArtBoardIndex.getDataPath b1 = ArtBoardIndex.getDataPath b2 ->
  p1 = p2.
Proof.
  intros H1 H2. unfold ArtBoardIndex.getDataPath. rewrite H1, H2. simpl.
  intros [= H]. apply String.app_inj in H.
  apply string_app_inj_r in H. exact H.
Qed.

Lemma getDataPath_injective_witness :
  "artboard-1" = "artboard-1".
Proof.
  apply (getDataPath_injective home home); reflexivity.
Defined.

(** X5. [isArtBoard] answers [true] exactly when the path is a string that
    begins with [artboard], and throws exactly when the path is not a
    string. *)
Theorem isArtBoard_prefix (this : ArtBoardIndex.t) :
  (ArtBoardIndex.isArtBoard this = Ok true <->
   exists rest, ArtBoardIndex.path this = Some (JStr ("artboard" ++ rest))) /\
  (ArtBoardIndex.isArtBoard this = Throw TypeError <->
   forall p, ArtBoardIndex.path this <> Some (JStr p)).
Proof.
  unfold ArtBoardIndex.isArtBoard.
  destruct (ArtBoardIndex.path this) as [[]|]; split; split;
    try discriminate; try (intros [rest H]; discriminate H);
    try (intros _; reflexivity); try (intros _ p; discriminate).
  - intros [= H]. apply prefix_app in H. destruct H as [rest ->].
    exists rest. reflexivity.
  - intros [rest [= ->]]. f_equal. apply prefix_app. exists rest. reflexivity.
  - intros H. exfalso. apply (H s). reflexivity.
Qed.

(** X6. The constructor fails on [null] and on nothing else, and the
    descriptor it builds keeps the entry as its contents and is loaded: the
    [isLoaded] test of the enumeration never rejects a descriptor. *)
Theorem ArtBoardIndex_new_loaded (object : json) :
  (ArtBoardIndex.new object = Throw TypeError <-> object = JNull) /\
  forall this, ArtBoardIndex.new object = Ok this ->
    ArtBoardIndex.contents this = object /\
    ArtBoardIndex.isLoaded this = true /\
    get_prop object "id" = Ok (ArtBoardIndex.id this) /\
    get_prop object "name" = Ok (ArtBoardIndex.name this) /\
    get_prop object "path" = Ok (ArtBoardIndex.path this).
Proof.
  split.
  - destruct object; simpl; split; try discriminate; reflexivity.
  - intros this H. pose proof (ArtBoardIndex_new_contents _ _ H) as Hc.
    unfold ArtBoardIndex.isLoaded. rewrite Hc.
    destruct object; try discriminate; simpl in *; injection H as <-;
      repeat split.
Qed.

Lemma ArtBoardIndex_new_loaded_witness :
  ArtBoardIndex.contents home = home_entry /\
  ArtBoardIndex.isLoaded home = true /\
  get_prop home_entry "id" = Ok (ArtBoardIndex.id home) /\
  get_prop home_entry "name" = Ok (ArtBoardIndex.name home) /\
  get_prop home_entry "path" = Ok (ArtBoardIndex.path home).
Proof.
  destruct (ArtBoardIndex_new_loaded home_entry) as [_ H].
  apply H. reflexivity.
Defined.

(** ** Further properties: Manifest *)

Lemma findArtWork_find children :
  Forall (fun c => c <> JNull) children ->
  Manifest.findArtWork children = Ok (List.find (named "artwork") children).
Proof.
  induction 1 as [|child rest Hc _ IH]; simpl; [reflexivity|].
  destruct (get_prop child "name") as [n|] eqn:Hn;
    [|destruct child; simpl in Hn; congruence].
  rewrite (named_get_prop _ _ _ Hn).
  destruct (is_string "artwork" n); [reflexivity | exact IH].
Qed.

(** X7. Over a [children] array without [null] elements, [getArtWork]
    returns the first child named [artwork], and [undefined] when there is
    none. *)
Theorem getArtWork_first (manifest : json) (children : list json) :
  get_prop manifest "children" = Ok (Some (JArr children)) ->
  Forall (fun c => c <> JNull) children ->
  Manifest.getArtWork manifest = Ok (List.find (named "artwork") children).
Proof.
  intros Hch Hall. unfold Manifest.getArtWork. rewrite Hch. simpl.
  apply findArtWork_find, Hall.
Qed.

Lemma getArtWork_first_witness :
  Manifest.getArtWork two_page_manifest
  = Ok (Some (JObj [("name", JStr "artwork");
                    ("children", JArr [entry "pasteboard" "0" "pasteboard";
                                       home_entry; about_entry])])).
Proof.
  apply (getArtWork_first two_page_manifest
           [JObj [("name", JStr "resources")];
            JObj [("name", JStr "artwork");
                  ("children", JArr [entry "pasteboard" "0" "pasteboard";
                                     home_entry; about_entry])]]).
  - reflexivity.
  - repeat constructor; discriminate.
Defined.

(** X8. A loaded manifest that has no [children], or whose children (none
    of them [null]) include none named [artwork], or whose artwork root has
    no [children], has no page list; the run then ends with an empty
    catalog, nothing printed and nothing thrown. *)
Theorem no_artwork_no_pages (zip : archive) (manifest : json) :
  getEntry zip "manifest" = Some (Encodes manifest) ->
  manifest <> JNull ->
  get_prop manifest "children" = Ok undefined \/
  (exists children,
      get_prop manifest "children" = Ok (Some (JArr children)) /\
      Forall (fun c => c <> JNull) children /\
      match List.find (named "artwork") children with
      | None => True
      | Some artWork => get_prop artWork "children" = Ok undefined
      end) ->
  Manifest.getArtBoards manifest = Ok None /\
  XdFonts.makeList zip = ([], Ok []) /\
  main zip = ([], Ok tt).
Proof.
  intros Hentry Hnn Hshape.
  assert (Hb : Manifest.getArtBoards manifest = Ok None).
  { unfold Manifest.getArtBoards. destruct Hshape as [H | (cs & H & Hall & Hf)].
    - unfold Manifest.getArtWork. rewrite H. reflexivity.
    - unfold Manifest.getArtWork. rewrite H. simpl.
      rewrite (findArtWork_find _ Hall).
      destruct (List.find (named "artwork") cs) as [aw|]; [|reflexivity].
      rewrite Hf. reflexivity. }
  assert (Hm : XdFonts.makeList zip = ([], Ok [])).
  { assert (Hl : Manifest.isLoaded manifest = true)
      by (destruct manifest; [congruence | reflexivity..]).
    unfold XdFonts.makeList. rewrite Hentry. simpl. rewrite Hl. simpl.
    rewrite Hb. reflexivity. }
  repeat split; [exact Hb | exact Hm |].
  unfold main. rewrite Hm. reflexivity.
Qed.

Lemma no_artwork_no_pages_witness :
  Manifest.getArtBoards (JObj [("children", JArr [])]) = Ok None /\
  XdFonts.makeList rootless = ([], Ok []) /\
  main rootless = ([], Ok tt).
Proof.
  apply no_artwork_no_pages; [reflexivity | discriminate |].
  right. exists []. repeat split. constructor.
Defined.

Lemma collectArtBoards_null children :
  JNull ∈ children -> Manifest.collectArtBoards children = Throw TypeError.
Proof.
  induction children as [|child rest IH]; intros Hin.
  - apply elem_of_nil in Hin. contradiction.
  - apply elem_of_cons in Hin. simpl.
    destruct child; try (destruct Hin as [Hin|Hin]; [discriminate Hin|]);
      try reflexivity; simpl;
      try (rewrite (IH Hin); reflexivity).
    destruct (is_string "pasteboard" (own_get "name" props0));
      rewrite (IH Hin); reflexivity.
Qed.

Lemma null_or_entries (children : list json) :
  JNull ∈ children \/ Forall (fun c => c <> JNull) children.
Proof.
  induction children as [|child rest [IH|IH]].
  - right. constructor.
  - left. apply list_elem_of_further, IH.
  - destruct child; try (right; constructor; [discriminate | exact IH]).
    left. apply list_elem_of_here.
Qed.

(** X9. The enumeration throws a [TypeError] exactly when one of the
    children of the artwork root is [null]; the children before it yield no
    descriptor either. *)
Theorem null_child_throws (manifest artWork : json) (children : list json) :
  Manifest.getArtWork manifest = Ok (Some artWork) ->
  get_prop artWork "children" = Ok (Some (JArr children)) ->
  (Manifest.getArtBoards manifest = Throw TypeError <-> JNull ∈ children).
Proof.
  intros Haw Hch. split.
  - intros Ht. destruct (null_or_entries children) as [Hin|Hall]; [exact Hin|].
    exfalso.
    destruct (getArtBoards_filter _ _ _ Haw Hch Hall) as (boards & Hb & _).
    congruence.
  - intros Hin. unfold Manifest.getArtBoards. rewrite Haw, Hch. simpl.
    rewrite (collectArtBoards_null _ Hin). reflexivity.
Qed.

Lemma null_child_throws_witness :
  Manifest.getArtBoards (manifest_of [home_entry; JNull]) = Throw TypeError.
Proof.
  apply (null_child_throws (manifest_of [home_entry; JNull])
           (JObj [("name", JStr "artwork");
                  ("children", JArr [home_entry; JNull])])
           [home_entry; JNull]); [reflexivity | reflexivity |].
  apply list_elem_of_further, list_elem_of_here.
Defined.

(** ** Further properties: ArtBoard *)

Lemma own_set_Forall {A} (P : string * A -> Prop) k v (o : props A) :
  Forall P o -> P (k, v) -> Forall P (own_set k v o).
Proof.
  intros Ho Hkv. unfold own_set. destruct (has_own k o).
  - induction Ho as [|[k' v'] rest Hx Hrest IH]; simpl; [constructor|].
    destruct (String.eqb_spec k' k) as [->|Hne]; constructor; auto.
  - unfold insert_new. destruct (array_index k) as [i|].
    + induction Ho as [|[k' v'] rest Hx Hrest IH]; simpl.
      * constructor; [exact Hkv | constructor].
      * destruct (array_index k') as [j|]; [destruct (j <? i)%N|];
          repeat (constructor; auto).
    + apply Forall_app. split; [exact Ho|]. constructor; [exact Hkv|constructor].
Qed.

Lemma findFonts_JArr_cons item rest fonts :
  ArtBoard.findFonts (JArr (item :: rest)) fonts
  = let! fonts := ArtBoard.findFonts item fonts in
    ArtBoard.findFonts (JArr rest) fonts.
Proof. reflexivity. Qed.

Lemma findFonts_JObj o fonts :
  ArtBoard.findFonts (JObj o) fonts
  = let! fonts := scanSelf o fonts in scanFields o fonts.
Proof.
  unfold scanSelf. simpl.
  destruct (match own_get "fontFamily" o with
            | Some _ => ArtBoard.record (ArtBoard.inlineFont o) fonts
            | None => Ok fonts
            end) as [fonts1|e]; [|reflexivity].
  clear fonts. revert fonts1.
  induction o as [|[k v] rest IH]; intros fonts1; simpl; [reflexivity|].
  destruct (if String.eqb k "font" then _ else _) as [fonts2|]; [|reflexivity].
  destruct (ArtBoard.findFonts v fonts2) as [fonts3|]; [|reflexivity].
  apply IH.
Qed.

Lemma declared_item x items font :
  x ∈ items -> declared x font -> declared (JArr items) font.
Proof.
  intros Hin [(o & Hs & Hf & ->) | (o & v & Hs & Hv & Hn)]; [left | right].
  - exists o. repeat split; [eapply sub_item; eauto | exact Hf].
  - exists o, v. repeat split; [eapply sub_item; eauto | exact Hv | exact Hn].
Qed.

Lemma declared_field k x fields font :
  (k, x) ∈ fields -> declared x font -> declared (JObj fields) font.
Proof.
  intros Hin [(o & Hs & Hf & ->) | (o & v & Hs & Hv & Hn)]; [left | right].
  - exists o. repeat split; [eapply sub_field; eauto | exact Hf].
  - exists o, v. repeat split; [eapply sub_field; eauto | exact Hv | exact Hn].
Qed.

(** A property of the font map that recording a declaration of the
    document preserves is preserved by the scan of the document. *)
Section Preservation.
Variable I : ArtBoard.fontsObject -> Prop.
Variable D : FontData.t -> Prop.
Hypothesis record_preserves : forall font fonts fonts',
  D font -> I fonts -> ArtBoard.record font fonts = Ok fonts' -> I fonts'.

Lemma scanFields_preserved (fields : props json) :
  Forall (fun kv => preserved I D (snd kv)) fields ->
  (forall v font, ("font", v) ∈ fields -> ArtBoard.nestedFont v = Ok font ->
                  D font) ->
  (forall k v font, (k, v) ∈ fields -> declared v font -> D font) ->
  forall fonts fonts',
    I fonts -> scanFields fields fonts = Ok fonts' -> I fonts'.
Proof.
  induction 1 as [|[k v] rest Hv _ IH]; intros Hfont Hsub fonts fonts' HI;
    simpl.
  - intros [= <-]. exact HI.
  - destruct (if String.eqb k "font" then _ else _) as [fonts1|] eqn:H1;
      [|discriminate].
    destruct (ArtBoard.findFonts v fonts1) as [fonts2|] eqn:H2; [|discriminate].
    intros Hrest.
    assert (HI1 : I fonts1).
    { destruct (String.eqb_spec k "font") as [->|Hne].
      - destruct (ArtBoard.nestedFont v) as [font|] eqn:Hn; [|discriminate].
        apply (record_preserves font fonts); auto.
        apply (Hfont v); [apply list_elem_of_here | exact Hn].
      - injection H1 as <-. exact HI. }
    assert (HI2 : I fonts2).
    { apply (Hv ltac:(intros font; apply (Hsub k v), list_elem_of_here) fonts1);
        assumption. }
    apply (fun Hf Hs => IH Hf Hs fonts2); try assumption.
    + intros v' font' Hin. apply Hfont, list_elem_of_further, Hin.
    + intros k' v' font' Hin. apply (Hsub k'), list_elem_of_further, Hin.
Qed.

Lemma findFonts_preserved (doc : json) : preserved I D doc.
Proof.
  induction doc as [| | | |items IH|o IH] using json_induction;
    unfold preserved; intros Hd fonts fonts' HI;
    try (simpl; intros [= <-]; exact HI).
  - assert (Hitems : forall x font, x ∈ items -> declared x font -> D font).
    { intros x font Hin Hx. apply Hd. eapply declared_item; eauto. }
    clear Hd. revert fonts HI.
    induction IH as [|x rest Hx _ IHrest]; intros fonts HI.
    + simpl. intros [= <-]. exact HI.
    + rewrite findFonts_JArr_cons.
      destruct (ArtBoard.findFonts x fonts) as [fonts1|] eqn:H1; [|discriminate].
      apply IHrest.
      * intros y font Hin. apply Hitems. apply list_elem_of_further, Hin.
      * apply (Hx ltac:(intros font; apply (Hitems x), list_elem_of_here)
                  fonts); assumption.
  - rewrite findFonts_JObj.
    destruct (scanSelf o fonts) as [fonts1|] eqn:H1; [|discriminate].
    apply (scanFields_preserved o IH).
    + intros v font Hin Hn. apply Hd. right. exists o, v.
      repeat split; [constructor | exact Hin | exact Hn].
    + intros k v font Hin Hv. apply Hd. eapply declared_field; eauto.
    + unfold scanSelf in H1.
      destruct (own_get "fontFamily" o) eqn:Hff.
      * apply (record_preserves (ArtBoard.inlineFont o) fonts); auto.
        apply Hd. left. exists o. repeat split; [constructor | congruence].
      * injection H1 as <-. exact HI.
Qed.

End Preservation.

Lemma own_get_elem {A} k (v : A) (o : props A) :
  own_get k o = Some v -> (k, v) ∈ o.
Proof.
  induction o as [|[k' v'] o IH]; simpl; [discriminate|].
  destruct (String.eqb_spec k' k) as [->|Hne].
  - intros [= ->]. apply list_elem_of_here.
  - intros H. apply list_elem_of_further; auto.
Qed.

(** What [record] does to the own properties, by the key of the font. *)
Lemma record_inv font fonts fonts' :
  ArtBoard.record font fonts = Ok fonts' ->
  exists key,
    toString (FontData.id font) = Ok key /\
    (key = "__proto__" /\ ArtBoard.own fonts' = ArtBoard.own fonts \/
     key <> "__proto__" /\
     ArtBoard.own fonts' = own_set key font (ArtBoard.own fonts)).
Proof.
  unfold ArtBoard.record, ArtBoard.fonts_put.
  destruct (toString (FontData.id font)) as [key|]; [|discriminate].
  intros H. destruct (String.eqb_spec key "__proto__") as [Heq|Hne].
  - injection H as <-. exists key. split; [reflexivity|]. left.
    split; [exact Heq | reflexivity].
  - destruct (ArtBoard.inherits_font fonts && String.eqb key "id"
              && negb (has_own "id" (ArtBoard.own fonts)));
      [discriminate|].
    injection H as <-. exists key. split; [reflexivity|]. right.
    split; [exact Hne | reflexivity].
Qed.

Lemma declared_fresh doc font :
  declared doc font ->
  FontData.usages font = [] /\
  FontData.style font <> undefined /\ FontData.style font <> Some JNull.
Proof.
  assert (Hnew : forall n st ps,
             FontData.usages (FontData.new n st ps) = [] /\
             FontData.style (FontData.new n st ps) <> undefined /\
             FontData.style (FontData.new n st ps) <> Some JNull).
  { intros n st ps. destruct st as [[]|]; simpl; repeat split; discriminate. }
  intros [(o & _ & _ & ->) | (o & v & _ & _ & Hn)].
  - apply Hnew.
  - unfold ArtBoard.nestedFont in Hn.
    destruct (get_prop v "family"); [|discriminate].
    destruct (get_prop v "style"); [|discriminate].
    destruct (get_prop v "postscriptName"); [|discriminate].
    injection Hn as <-. apply Hnew.
Qed.

(** X10. Recording a declaration whose identity renders as a key other
    than ["__proto__"] makes it the entry of that key and leaves the entry
    of every other key as it was; a key the map already has keeps its
    place, so the keys do not change. *)
Theorem record_lookup (font : FontData.t) (fonts fonts' : ArtBoard.fontsObject)
  (key : string) :
  toString (FontData.id font) = Ok key ->
  key <> "__proto__" ->
  ArtBoard.record font fonts = Ok fonts' ->
  own_get key (ArtBoard.own fonts') = Some font /\
  (forall k, k <> key ->
     own_get k (ArtBoard.own fonts') = own_get k (ArtBoard.own fonts)) /\
  (has_own key (ArtBoard.own fonts) = true ->
   own_keys (ArtBoard.own fonts') = own_keys (ArtBoard.own fonts)).
Proof.
  intros Hkey Hne Hrec.
  destruct (record_inv _ _ _ Hrec) as (key' & Hk' & Hcases).
  rewrite Hkey in Hk'. injection Hk' as <-.
  destruct Hcases as [[Hp _] | [_ Hown]]; [congruence|].
  rewrite Hown. split; [|split].
  - rewrite own_get_own_set, String.eqb_refl. reflexivity.
  - intros k Hk. rewrite own_get_own_set.
    destruct (String.eqb_spec key k); [congruence | reflexivity].
  - apply own_keys_own_set_old.
Qed.

Lemma record_lookup_witness :
  own_get "undefined" (ArtBoard.own (only_undefined nested_anonymous))
  = Some nested_anonymous.
Proof.
  apply (record_lookup nested_anonymous (only_undefined inline_anonymous)
                       (only_undefined nested_anonymous) "undefined");
    [reflexivity | discriminate | reflexivity].
Defined.

(** X11. A declaration whose identity renders as ["__proto__"] is recorded
    without an error and without an entry: the own properties of the font
    map are unchanged.  After it, a declaration whose identity renders as
    ["id"] is recorded as usual when the font map already has an own key
    ["id"], and cannot be recorded when it has none: the assignment then
    throws. *)
Theorem proto_identity_dropped (font : FontData.t)
  (fonts : ArtBoard.fontsObject) :
  toString (FontData.id font) = Ok "__proto__" ->
  exists fonts',
    ArtBoard.record font fonts = Ok fonts' /\
    ArtBoard.own fonts' = ArtBoard.own fonts /\
    forall font2, toString (FontData.id font2) = Ok "id" ->
      (has_own "id" (ArtBoard.own fonts) = false ->
       ArtBoard.record font2 fonts' = Throw TypeError) /\
      (has_own "id" (ArtBoard.own fonts) = true ->
       exists fonts'',
         ArtBoard.record font2 fonts' = Ok fonts'' /\
         own_get "id" (ArtBoard.own fonts'') = Some font2 /\
         own_keys (ArtBoard.own fonts'') = own_keys (ArtBoard.own fonts)).
Proof.
  intros Hkey. unfold ArtBoard.record. rewrite Hkey.
  eexists. split; [reflexivity|]. split; [reflexivity|].
  intros font2 H2. rewrite H2. unfold ArtBoard.fonts_put. simpl. split.
  - intros Hid. rewrite Hid. reflexivity.
  - intros Hid. rewrite Hid. simpl. eexists. split; [reflexivity|]. simpl.
    split.
    + rewrite own_get_own_set, String.eqb_refl. reflexivity.
    + apply own_keys_own_set_old, Hid.
Qed.

Lemma proto_identity_dropped_witness :
  exists fonts',
    ArtBoard.record (FontData.new (Some (JStr "P")) None
                                  (Some (JStr "__proto__")))
                    (only_undefined nested_anonymous) = Ok fonts' /\
    ArtBoard.own fonts' = [("undefined", nested_anonymous)] /\
    ArtBoard.record (FontData.new (Some (JStr "Q")) None (Some (JStr "id")))
                    fonts' = Throw TypeError.
Proof.
  destruct (proto_identity_dropped
              (FontData.new (Some (JStr "P")) None (Some (JStr "__proto__")))
              (only_undefined nested_anonymous) eq_refl)
    as (fonts' & Hrec & Hown & Hid).
  exists fonts'. split; [exact Hrec|]. split; [exact Hown|].
  apply (Hid (FontData.new (Some (JStr "Q")) None (Some (JStr "id"))));
    reflexivity.
Defined.

Lemma record_scanned font fonts fonts' :
  FontData.usages font = [] /\
  FontData.style font <> undefined /\ FontData.style font <> Some JNull ->
  NoDup (own_keys (ArtBoard.own fonts)) /\
  Forall scanned_entry (ArtBoard.own fonts) ->
  ArtBoard.record font fonts = Ok fonts' ->
  NoDup (own_keys (ArtBoard.own fonts')) /\
  Forall scanned_entry (ArtBoard.own fonts').
Proof.
  intros (Hu & Hs1 & Hs2) [Hnd Hall] Hrec.
  destruct (record_inv _ _ _ Hrec) as (key & Hkey & [[_ ->] | [_ ->]]).
  - split; assumption.
  - split; [apply own_set_NoDup, Hnd|].
    apply own_set_Forall; [exact Hall|]. repeat split; assumption.
Qed.

Lemma findFonts_scanned doc fonts :
  ArtBoard.findFonts doc ArtBoard.empty = Ok fonts ->
  NoDup (own_keys (ArtBoard.own fonts)) /\
  Forall scanned_entry (ArtBoard.own fonts).
Proof.
  intros Hscan.
  apply (findFonts_preserved
           (fun f => NoDup (own_keys (ArtBoard.own f)) /\
                     Forall scanned_entry (ArtBoard.own f))
           (fun font => FontData.usages font = [] /\
                        FontData.style font <> undefined /\
                        FontData.style font <> Some JNull)
           record_scanned doc (declared_fresh _) ArtBoard.empty fonts);
    [|exact Hscan].
  simpl. split; constructor.
Qed.

(** X12. In the font map [updateFonts] builds the keys are pairwise
    distinct, and every entry is filed under the string of its own identity,
    has no usage and has a style that is neither [undefined] nor [null]; the
    contents of the artboard are unchanged. *)
Theorem updateFonts_entries (this this' : ArtBoard.t) :
  ArtBoard.updateFonts this = Ok this' ->
  ArtBoard.contents this' = ArtBoard.contents this /\
  NoDup (own_keys (ArtBoard.own (ArtBoard.fonts this'))) /\
  Forall scanned_entry (ArtBoard.own (ArtBoard.fonts this')).
Proof.
  unfold ArtBoard.updateFonts.
  destruct (truthy (ArtBoard.contents this)).
  - destruct (ArtBoard.findFonts (ArtBoard.contents this) ArtBoard.empty)
      as [fonts|] eqn:Hscan; [|discriminate].
    intros [= <-]. simpl. split; [reflexivity|].
    apply (findFonts_scanned _ _ Hscan).
  - intros [= <-]. simpl. split; [reflexivity|]. split; constructor.
Qed.

Lemma updateFonts_entries_witness :
  Forall scanned_entry traversal_fonts.
Proof.
  apply (updateFonts_entries
           {| ArtBoard.fonts := only_undefined nested_anonymous;
              ArtBoard.contents := traversal_document |}
           {| ArtBoard.fonts :=
                {| ArtBoard.own := traversal_fonts;
                   ArtBoard.inherits_font := false |};
              ArtBoard.contents := traversal_document |}).
  reflexivity.
Defined.

Lemma record_declared doc font fonts fonts' :
  declared doc font ->
  Forall (fun kv => declared doc (snd kv)) (ArtBoard.own fonts) ->
  ArtBoard.record font fonts = Ok fonts' ->
  Forall (fun kv => declared doc (snd kv)) (ArtBoard.own fonts').
Proof.
  intros Hd Hall Hrec.
  destruct (record_inv _ _ _ Hrec) as (key & Hkey & [[_ ->] | [_ ->]]);
    [exact Hall|].
  apply own_set_Forall; assumption.
Qed.

(** X13. Every entry of the font map [updateFonts] builds is a declaration
    of the document: that of an object carrying [fontFamily], or that of the
    value of a [font] field. *)
Theorem updateFonts_sound (this this' : ArtBoard.t) (key : string)
  (font : FontData.t) :
  ArtBoard.updateFonts this = Ok this' ->
  own_get key (ArtBoard.own (ArtBoard.fonts this')) = Some font ->
  declared (ArtBoard.contents this) font.
Proof.
  unfold ArtBoard.updateFonts.
  destruct (truthy (ArtBoard.contents this)).
  - destruct (ArtBoard.findFonts (ArtBoard.contents this) ArtBoard.empty)
      as [fonts|] eqn:Hscan; [|discriminate].
    intros [= <-]. simpl. intros Hget.
    assert (Hall : Forall (fun kv => declared (ArtBoard.contents this) (snd kv))
                          (ArtBoard.own fonts)).
    { apply (findFonts_preserved
               (fun f => Forall (fun kv => declared (ArtBoard.contents this)
                                                    (snd kv))
                                (ArtBoard.own f))
               (declared (ArtBoard.contents this))
               (record_declared (ArtBoard.contents this))
               (ArtBoard.contents this) (fun font H => H)
               ArtBoard.empty fonts); [constructor | exact Hscan]. }
    apply own_get_elem in Hget.
    rewrite Forall_forall in Hall. apply (Hall (key, font)), Hget.
  - intros [= <-]. simpl. discriminate.
Qed.

Lemma updateFonts_sound_witness :
  declared traversal_document
    (FontData.new (Some (JStr "Bar")) (Some JNull) (Some (JStr "Bar-Reg"))).
Proof.
  apply (updateFonts_sound
           {| ArtBoard.fonts := ArtBoard.empty;
              ArtBoard.contents := traversal_document |}
           {| ArtBoard.fonts :=
                {| ArtBoard.own := traversal_fonts;
                   ArtBoard.inherits_font := false |};
              ArtBoard.contents := traversal_document |}
           "Bar-Reg"); reflexivity.
Defined.

Lemma record_keeps k font fonts fonts' :
  True -> has_own k (ArtBoard.own fonts) = true ->
  ArtBoard.record font fonts = Ok fonts' ->
  has_own k (ArtBoard.own fonts') = true.
Proof.
  intros _ Hk Hrec.
  destruct (record_inv _ _ _ Hrec) as (key & _ & [[_ ->] | [_ ->]]);
    [exact Hk|].
  apply has_own_true. rewrite own_get_own_set.
  destruct (String.eqb key k); [eauto | apply has_own_true, Hk].
Qed.

(** The scan never removes a key from the font map. *)
Lemma findFonts_keeps k doc fonts fonts' :
  ArtBoard.findFonts doc fonts = Ok fonts' ->
  has_own k (ArtBoard.own fonts) = true ->
  has_own k (ArtBoard.own fonts') = true.
Proof.
  intros Hscan Hk.
  apply (findFonts_preserved (fun f => has_own k (ArtBoard.own f) = true)
                             (fun _ => True) (record_keeps k) doc
                             (fun _ _ => Logic.I) fonts fonts' Hk Hscan).
Qed.

Lemma scanFields_keeps k fields fonts fonts' :
  scanFields fields fonts = Ok fonts' ->
  has_own k (ArtBoard.own fonts) = true ->
  has_own k (ArtBoard.own fonts') = true.
Proof.
  intros Hscan Hk.
  refine (scanFields_preserved (fun f => has_own k (ArtBoard.own f) = true)
                               (fun _ => True) (record_keeps k) fields
                               _ _ _ fonts fonts' Hk Hscan); auto.
  apply Forall_forall. intros kv _. apply findFonts_preserved, record_keeps.
Qed.

Lemma findFonts_JArr_keeps k items fonts fonts' :
  ArtBoard.findFonts (JArr items) fonts = Ok fonts' ->
  has_own k (ArtBoard.own fonts) = true ->
  has_own k (ArtBoard.own fonts') = true.
Proof. apply findFonts_keeps. Qed.

(** A part of the document whose scan leaves [key] in the font map passes
    that on to every document it occurs in. *)
Lemma subvalue_leaves key v doc :
  subvalue v doc ->
  (forall fonts fonts', ArtBoard.findFonts v fonts = Ok fonts' ->
                        has_own key (ArtBoard.own fonts') = true) ->
  forall fonts fonts', ArtBoard.findFonts doc fonts = Ok fonts' ->
                       has_own key (ArtBoard.own fonts') = true.
Proof.
  intros Hsub Hv. induction Hsub as [|x items Hin _ IH|k x o Hin _ IH];
    [exact Hv| |].
  - induction items as [|y rest IHrest]; intros fonts fonts';
      [apply elem_of_nil in Hin; contradiction|].
    rewrite findFonts_JArr_cons.
    destruct (ArtBoard.findFonts y fonts) as [fonts1|] eqn:H1; [|discriminate].
    intros Hrest. apply elem_of_cons in Hin. destruct Hin as [->|Hin].
    + eapply findFonts_JArr_keeps; [exact Hrest|]. eapply IH, H1.
    + eapply IHrest; eauto.
  - intros fonts fonts'. rewrite findFonts_JObj.
    destruct (scanSelf o fonts) as [fonts1|]; [|discriminate].
    clear fonts. revert fonts1.
    induction o as [|[k' y] rest IHrest]; intros fonts1;
      [apply elem_of_nil in Hin; contradiction|].
    simpl.
    destruct (if String.eqb k' "font" then _ else _) as [fonts2|];
      [|discriminate].
    destruct (ArtBoard.findFonts y fonts2) as [fonts3|] eqn:H3; [|discriminate].
    intros Hrest. apply elem_of_cons in Hin. destruct Hin as [[= <- <-]|Hin].
    + eapply scanFields_keeps; [exact Hrest|]. eapply IH, H3.
    + eapply IHrest; eauto.
Qed.

Lemma record_leaves key font fonts fonts' :
  toString (FontData.id font) = Ok key -> key <> "__proto__" ->
  ArtBoard.record font fonts = Ok fonts' ->
  has_own key (ArtBoard.own fonts') = true.
Proof.
  intros Hkey Hne Hrec. apply has_own_true. exists font.
  destruct (record_inv _ _ _ Hrec) as (key' & Hk' & Hcases).
  rewrite Hkey in Hk'. injection Hk' as <-.
  destruct Hcases as [[Hp _] | [_ ->]]; [congruence|].
  rewrite own_get_own_set, String.eqb_refl. reflexivity.
Qed.

(** A declaration of the document leaves its identity in the font map,
    whatever the map the scan starts from. *)
Lemma findFonts_declared_key font key :
  toString (FontData.id font) = Ok key -> key <> "__proto__" ->
  forall doc fonts fonts',
    declared doc font ->
    ArtBoard.findFonts doc fonts = Ok fonts' ->
    has_own key (ArtBoard.own fonts') = true.
Proof.
  intros Hkey Hne.
  intros doc fonts fonts' [(o & Hsub & Hff & ->) | (o & v & Hsub & Hin & Hn)].
  - apply (subvalue_leaves key _ _ Hsub). clear fonts fonts'.
    intros fonts fonts'. rewrite findFonts_JObj. unfold scanSelf.
    destruct (own_get "fontFamily" o); [|congruence].
    destruct (ArtBoard.record (ArtBoard.inlineFont o) fonts) as [fonts1|]
      eqn:Hrec; [|discriminate].
    intros Hrest. eapply scanFields_keeps; [exact Hrest|].
    eapply record_leaves; eauto.
  - apply (subvalue_leaves key _ _ Hsub). clear fonts fonts'.
    intros fonts fonts'. rewrite findFonts_JObj.
    destruct (scanSelf o fonts) as [fonts1|]; [|discriminate].
    clear fonts Hsub. revert fonts1.
    induction o as [|[k' y] rest IHrest]; intros fonts1;
      [apply elem_of_nil in Hin; contradiction|].
    simpl.
    destruct (if String.eqb k' "font" then _ else _) as [fonts2|] eqn:H2;
      [|discriminate].
    destruct (ArtBoard.findFonts y fonts2) as [fonts3|] eqn:H3;
      [|discriminate].
    intros Hrest. apply elem_of_cons in Hin.
    destruct Hin as [[= <- <-]|Hin]; [|eapply IHrest; eauto].
    simpl in H2. rewrite Hn in H2.
    eapply scanFields_keeps; [exact Hrest|].
    eapply findFonts_keeps; [exact H3|].
    eapply record_leaves; eauto.
Qed.

(** X14. When [updateFonts] completes, the identity of every declaration of
    the document, at whatever depth and in either shape, is a key of the
    font map, unless it renders as ["__proto__"]. *)
Theorem updateFonts_complete (this this' : ArtBoard.t) (font : FontData.t)
  (key : string) :
  ArtBoard.updateFonts this = Ok this' ->
  declared (ArtBoard.contents this) font ->
  toString (FontData.id font) = Ok key ->
  key <> "__proto__" ->
  has_own key (ArtBoard.own (ArtBoard.fonts this')) = true.
Proof.
  intros Hup Hdecl Hkey Hne.
  pose proof (findFonts_declared_key font key Hkey Hne) as Hscan.
  unfold ArtBoard.updateFonts in Hup.
  destruct (truthy (ArtBoard.contents this)) eqn:Ht.
  - destruct (ArtBoard.findFonts (ArtBoard.contents this) ArtBoard.empty)
      as [fonts|] eqn:Hf; [|discriminate].
    injection Hup as <-. simpl. eapply Hscan; eauto.
  - exfalso.
    destruct Hdecl as [(o & Hsub & _) | (o & v & Hsub & _)];
      inversion Hsub; subst; try discriminate;
      match goal with H : _ = ArtBoard.contents this |- _ =>
        rewrite <- H in Ht; discriminate Ht end.
Qed.

Lemma updateFonts_complete_witness :
  has_own "Foo-Bold" traversal_fonts = true.
Proof.
  apply (updateFonts_complete
           {| ArtBoard.fonts := ArtBoard.empty;
              ArtBoard.contents := traversal_document |}
           {| ArtBoard.fonts :=
                {| ArtBoard.own := traversal_fonts;
                   ArtBoard.inherits_font := false |};
              ArtBoard.contents := traversal_document |}
           (FontData.new (Some (JStr "Foo")) (Some (JStr "Bold"))
                         (Some (JStr "Foo-Bold")))
           "Foo-Bold").
  - reflexivity.
  - right.
    exists [("font", JObj [("family", JStr "Foo"); ("style", JStr "Bold");
                           ("postscriptName", JStr "Foo-Bold")])],
           (JObj [("family", JStr "Foo"); ("style", JStr "Bold");
                  ("postscriptName", JStr "Foo-Bold")]).
    split; [|split; [apply list_elem_of_here | reflexivity]].
    eapply sub_field; [apply list_elem_of_here | apply sub_here].
  - reflexivity.
  - discriminate.
Defined.

(** X15. Scanning an array is scanning its elements in order: the scan of a
    concatenation is the scan of the first part followed, if it completes,
    by the scan of the second from the font map the first leaves. *)
Theorem findFonts_app (items1 items2 : list json)
  (fonts : ArtBoard.fontsObject) :
  ArtBoard.findFonts (JArr (items1 ++ items2)) fonts
  = let! fonts := ArtBoard.findFonts (JArr items1) fonts in
    ArtBoard.findFonts (JArr items2) fonts.
Proof.
  revert fonts. induction items1 as [|item rest IH]; intros fonts.
  - reflexivity.
  - change ((item :: rest) ++ items2)%list with (item :: (rest ++ items2))%list.
    rewrite !findFonts_JArr_cons.
    destruct (ArtBoard.findFonts item fonts) as [fonts1|]; [apply IH|].
    reflexivity.
Qed.

Lemma js_toString_JArr_cons x rest :
  js_toString (JArr (x :: rest))
  = let! sx := match x with JNull => Ok "" | _ => js_toString x end in
    match rest with
    | [] => Ok sx
    | _ => let! sr := js_toString (JArr rest) in Ok (sx ++ "," ++ sr)
    end.
Proof. reflexivity. Qed.

Lemma js_toString_TypeError v e : js_toString v = Throw e -> e = TypeError.
Proof.
  revert e. induction v as [| [] | | |items IH|o _] using json_induction;
    intros e; try (simpl; discriminate).
  - induction IH as [|x rest Hx _ IHrest]; [simpl; discriminate|].
    rewrite js_toString_JArr_cons.
    destruct (match x with JNull => Ok "" | _ => js_toString x end)
      as [sx|ex] eqn:Hsx.
    + destruct rest as [|y rest']; [discriminate|].
      destruct (js_toString (JArr (y :: rest'))) as [sr|er];
        [discriminate|].
      intros [= <-]. apply IHrest. reflexivity.
    + intros [= <-]. apply Hx. destruct x; try discriminate; exact Hsx.
  - simpl.
    destruct (has_own "toString" o); [intros [= <-]; reflexivity|discriminate].
Qed.

Lemma record_TypeError font fonts e :
  ArtBoard.record font fonts = Throw e -> e = TypeError.
Proof.
  unfold ArtBoard.record, ArtBoard.fonts_put, toString.
  destruct (FontData.id font) as [v|]; simpl.
  - destruct (js_toString v) as [key|e'] eqn:Hk.
    + destruct (String.eqb key "__proto__"); [discriminate|].
      destruct (ArtBoard.inherits_font fonts && String.eqb key "id"
                && negb (has_own "id" (ArtBoard.own fonts)));
        [intros [= <-]; reflexivity | discriminate].
    + intros [= <-]. eapply js_toString_TypeError, Hk.
  - rewrite andb_false_r. discriminate.
Qed.

Lemma nestedFont_TypeError v e :
  ArtBoard.nestedFont v = Throw e -> e = TypeError.
Proof. destruct v; simpl; try discriminate. intros [= <-]. reflexivity. Qed.

Lemma scanFields_TypeError fields :
  Forall (fun kv => forall fonts e,
            ArtBoard.findFonts (snd kv) fonts = Throw e -> e = TypeError)
         fields ->
  forall fonts e, scanFields fields fonts = Throw e -> e = TypeError.
Proof.
  induction 1 as [|[k v] rest Hv _ IH]; intros fonts e; simpl; [discriminate|].
  destruct (if String.eqb k "font" then _ else _) as [fonts1|e1] eqn:H1.
  - destruct (ArtBoard.findFonts v fonts1) as [fonts2|e2] eqn:H2.
    + apply IH.
    + intros [= <-]. eapply Hv, H2.
  - intros [= <-]. destruct (String.eqb k "font"); [|discriminate].
    destruct (ArtBoard.nestedFont v) as [font|e'] eqn:Hn.
    + eapply record_TypeError, H1.
    + injection H1 as <-. eapply nestedFont_TypeError, Hn.
Qed.

(** The scan raises no other exception than a [TypeError]. *)
Lemma findFonts_TypeError doc : forall fonts e,
  ArtBoard.findFonts doc fonts = Throw e -> e = TypeError.
Proof.
  induction doc as [| | | |items IH|o IH] using json_induction;
    intros fonts e; try (simpl; discriminate).
  - revert fonts. induction IH as [|x rest Hx _ IHrest]; intros fonts;
      [simpl; discriminate|].
    rewrite findFonts_JArr_cons.
    destruct (ArtBoard.findFonts x fonts) as [fonts1|e1] eqn:H1.
    + apply IHrest.
    + intros [= <-]. eapply Hx, H1.
  - rewrite findFonts_JObj.
    destruct (scanSelf o fonts) as [fonts1|e1] eqn:H1.
    + apply scanFields_TypeError, IH.
    + intros [= <-]. unfold scanSelf in H1.
      destruct (own_get "fontFamily" o); [|discriminate].
      eapply record_TypeError, H1.
Qed.

(** A part whose scan never completes stops the scan of every document it
    occurs in. *)
Lemma subvalue_stops v doc :
  subvalue v doc ->
  (forall fonts fonts', ArtBoard.findFonts v fonts <> Ok fonts') ->
  forall fonts fonts', ArtBoard.findFonts doc fonts <> Ok fonts'.
Proof.
  intros Hsub Hv. induction Hsub as [|x items Hin _ IH|k x o Hin _ IH];
    [exact Hv| |].
  - induction items as [|y rest IHrest]; intros fonts fonts';
      [apply elem_of_nil in Hin; contradiction|].
    rewrite findFonts_JArr_cons.
    destruct (ArtBoard.findFonts y fonts) as [fonts1|] eqn:H1; [|discriminate].
    apply elem_of_cons in Hin. destruct Hin as [->|Hin].
    + exfalso. eapply IH, H1.
    + apply IHrest, Hin.
  - intros fonts fonts'. rewrite findFonts_JObj.
    destruct (scanSelf o fonts) as [fonts1|]; [|discriminate].
    clear fonts. revert fonts1.
    induction o as [|[k' y] rest IHrest]; intros fonts1;
      [apply elem_of_nil in Hin; contradiction|].
    simpl.
    destruct (if String.eqb k' "font" then _ else _) as [fonts2|];
      [|discriminate].
    destruct (ArtBoard.findFonts y fonts2) as [fonts3|] eqn:H3; [|discriminate].
    apply elem_of_cons in Hin. destruct Hin as [[= <- <-]|Hin].
    + exfalso. eapply IH, H3.
    + apply IHrest, Hin.
Qed.

(** X16. The value of a [font] field is not checked to be an object: a
    [font] field holding [null], in any object at any depth of the
    document, makes the scan throw a [TypeError], whatever else the
    document declares. *)
Theorem null_font_field_throws (doc : json) (o : props json)
  (fonts : ArtBoard.fontsObject) :
  subvalue (JObj o) doc ->
  ("font", JNull) ∈ o ->
  ArtBoard.findFonts doc fonts = Throw TypeError.
Proof.
  intros Hsub Hin.
  assert (Hstop : forall fonts fonts',
             ArtBoard.findFonts (JObj o) fonts <> Ok fonts').
  { clear fonts. intros fonts fonts'. rewrite findFonts_JObj.
    destruct (scanSelf o fonts) as [fonts1|]; [|discriminate].
    clear fonts Hsub. revert fonts1.
    induction o as [|[k' y] rest IHrest]; intros fonts1;
      [apply elem_of_nil in Hin; contradiction|].
    apply elem_of_cons in Hin. destruct Hin as [[= <- <-]|Hin].
    - simpl. discriminate.
    - simpl.
      destruct (if String.eqb k' "font" then _ else _) as [fonts2|];
        [|discriminate].
      destruct (ArtBoard.findFonts y fonts2) as [fonts3|]; [|discriminate].
      apply IHrest, Hin. }
  destruct (ArtBoard.findFonts doc fonts) as [fonts'|e] eqn:Hscan.
  - exfalso. eapply (subvalue_stops _ _ Hsub Hstop), Hscan.
  - f_equal. eapply findFonts_TypeError, Hscan.
Qed.

Lemma null_font_field_throws_witness :
  ArtBoard.findFonts
    (JArr [JObj first_X; JObj [("text", JObj [("font", JNull)])]])
    ArtBoard.empty
  = Throw TypeError.
Proof.
  apply (null_font_field_throws _ [("font", JNull)]).
  - eapply sub_item;
      [apply list_elem_of_further, list_elem_of_here|].
    eapply sub_field; [apply list_elem_of_here | apply sub_here].
  - apply list_elem_of_here.
Defined.

(** ** Further properties: XdFonts *)

(** X17. Once the catalog has an entry under the key ["hasOwnProperty"],
    merging any page that has a font throws a [TypeError]: the entry stands
    where the method the merge calls is looked up. *)
Theorem hasOwnProperty_entry_throws (index : ArtBoardIndex.t)
  (pageFonts fonts : props FontData.t) :
  has_own "hasOwnProperty" fonts = true ->
  pageFonts <> [] ->
  XdFonts.mergeFonts index pageFonts fonts = Throw TypeError.
Proof.
  intros Hh Hne. destruct pageFonts as [|[key pageFont] rest]; [congruence|].
  simpl. unfold XdFonts.mergeFont. rewrite Hh. reflexivity.
Qed.

Lemma hasOwnProperty_entry_throws_witness :
  XdFonts.mergeFonts about traversal_fonts
                     [("hasOwnProperty", nested_anonymous)]
  = Throw TypeError.
Proof. apply hasOwnProperty_entry_throws; [reflexivity | discriminate]. Defined.

Lemma usages_from_addUsage indices index label font :
  index ∈ indices -> ArtBoardIndex.label index = Ok label ->
  usages_from indices font ->
  usages_from indices (FontData.addUsage label font).
Proof.
  intros Hin Hl [Hnd Hfrom]. unfold FontData.addUsage.
  destruct (existsb (String.eqb label) (FontData.usages font)) eqn:He;
    [split; assumption|].
  split; simpl.
  - apply NoDup_app. split; [exact Hnd|]. split; [|apply NoDup_singleton].
    intros x Hx Hx'. apply list_elem_of_singleton in Hx'. subst x.
    apply existsb_eqb_elem in Hx. congruence.
  - intros l Hl'. apply elem_of_app in Hl'. destruct Hl' as [Hl'|Hl']; [auto|].
    apply list_elem_of_singleton in Hl'. subst l. eauto.
Qed.

Lemma addUsage_fields label font :
  FontData.id (FontData.addUsage label font) = FontData.id font /\
  FontData.style (FontData.addUsage label font) = FontData.style font.
Proof.
  unfold FontData.addUsage. destruct (existsb _ _); split; reflexivity.
Qed.

Lemma mergeFont_entries indices index key pageFont fonts fonts' :
  index ∈ indices ->
  scanned_entry (key, pageFont) ->
  Forall (catalog_entry indices) fonts ->
  XdFonts.mergeFont index key pageFont fonts = Ok fonts' ->
  Forall (catalog_entry indices) fonts'.
Proof.
  intros Hin (Hk & Hu & Hs1 & Hs2) Hall. unfold XdFonts.mergeFont.
  destruct (has_own "hasOwnProperty" fonts); [discriminate|].
  destruct (own_get key fonts) as [font|] eqn:Hget.
  - destruct (ArtBoardIndex.label index) as [label|] eqn:Hl; [|discriminate].
    intros [= <-].
    replace (replace_own key (FontData.addUsage label font) fonts)
      with (own_set key (FontData.addUsage label font) fonts)
      by (unfold own_set, has_own; rewrite Hget; reflexivity).
    apply own_set_Forall; [exact Hall|].
    apply own_get_elem in Hget. rewrite Forall_forall in Hall.
    destruct (Hall _ Hget) as (Hk' & Hs1' & Hs2' & Hfrom). simpl in *.
    destruct (addUsage_fields label font) as [Hid Hst].
    unfold catalog_entry. simpl. rewrite Hid, Hst.
    repeat split; try assumption;
      apply (usages_from_addUsage indices index label font Hin Hl Hfrom).
  - intros [= <-]. apply own_set_Forall; [exact Hall|].
    simpl in *. unfold catalog_entry, usages_from. simpl. rewrite Hu.
    repeat split; try assumption; [constructor|].
    intros l Hl. apply elem_of_nil in Hl. contradiction.
Qed.

Lemma mergeFonts_entries indices index pageFonts : forall fonts fonts',
  index ∈ indices ->
  Forall scanned_entry pageFonts ->
  Forall (catalog_entry indices) fonts ->
  XdFonts.mergeFonts index pageFonts fonts = Ok fonts' ->
  Forall (catalog_entry indices) fonts'.
Proof.
  induction pageFonts as [|[key pageFont] rest IH]; simpl;
    intros fonts fonts' Hin Hpage Hall.
  - intros [= <-]. exact Hall.
  - destruct (XdFonts.mergeFont index key pageFont fonts) as [fonts1|] eqn:H1;
      [|discriminate].
    apply Forall_cons in Hpage. destruct Hpage as [Hkv Hrest].
    apply IH; [exact Hin | exact Hrest |].
    eapply mergeFont_entries; eauto.
Qed.

Lemma scanBoard_scanned zip index pageFonts :
  scanBoard zip index = Ok (Some pageFonts) -> Forall scanned_entry pageFonts.
Proof.
  unfold scanBoard.
  destruct (ArtBoardIndex.getDataPath index) as [dataPath|]; [|discriminate].
  destruct (getData (getEntry zip dataPath)) as [data|]; [|discriminate].
  destruct (ArtBoard.new data) as [artBoard|]; [|discriminate].
  destruct (negb (ArtBoard.isLoaded artBoard)); [discriminate|].
  unfold ArtBoard.updateFonts.
  destruct (truthy (ArtBoard.contents artBoard)).
  - destruct (ArtBoard.findFonts (ArtBoard.contents artBoard) ArtBoard.empty)
      as [fonts|] eqn:Hscan; [|discriminate].
    intros [= <-]. apply (findFonts_scanned _ _ Hscan).
  - intros [= <-]. constructor.
Qed.

Lemma processBoards_entries all zip indices : forall fonts out fonts',
  (forall index, index ∈ indices -> index ∈ all) ->
  Forall (catalog_entry all) fonts ->
  XdFonts.processBoards zip indices fonts = (out, Ok fonts') ->
  Forall (catalog_entry all) fonts'.
Proof.
  induction indices as [|index rest IH]; simpl; intros fonts out fonts' Hsub Hall.
  - unfold lift. intros [= _ <-]. exact Hall.
  - unfold io_bind at 1.
    destruct (XdFonts.processBoard zip index fonts) as [out1 [fonts1|]] eqn:H1;
      [|discriminate].
    destruct (XdFonts.processBoards zip rest fonts1) as [out2 r2] eqn:H2.
    intros [= _ ->]. apply processBoard_Ok in H1.
    apply (IH fonts1 out2 fonts'); [| |exact H2].
    + intros i Hi. apply Hsub, list_elem_of_further, Hi.
    + destruct (scanBoard zip index) as [[pageFonts|]|] eqn:Hscan;
        [| |contradiction].
      * eapply mergeFonts_entries; [| |exact Hall|exact H1].
        -- apply Hsub, list_elem_of_here.
        -- eapply scanBoard_scanned, Hscan.
      * subst fonts1. exact Hall.
Qed.

(** X18. In the catalog of a completed run every entry is filed under the
    string of its identity, has a style that is neither [undefined] nor
    [null], and has for usages labels of enumerated pages, none of them
    twice. *)
Theorem catalog_entries (zip : archive) (manifest : json)
  (indices : list ArtBoardIndex.t) (out : list console_line)
  (fonts : props FontData.t) :
  getEntry zip "manifest" = Some (Encodes manifest) ->
  Manifest.getArtBoards manifest = Ok (Some indices) ->
  XdFonts.makeList zip = (out, Ok fonts) ->
  Forall (catalog_entry indices) fonts.
Proof.
  intros Hentry Hboards. unfold XdFonts.makeList. rewrite Hentry. simpl.
  assert (Hl : Manifest.isLoaded manifest = true).
  { destruct manifest; try reflexivity. discriminate Hboards. }
  rewrite Hl, Hboards. simpl.
  destruct (XdFonts.processBoards zip indices []) as [out' r] eqn:Hrun.
  intros [= _ ->].
  eapply processBoards_entries; [| |exact Hrun]; [auto | constructor].
Qed.

Lemma catalog_entries_witness :
  exists fonts,
    XdFonts.makeList two_pages = ([], Ok fonts) /\
    Forall (catalog_entry [home; about]) fonts.
Proof.
  eexists. split; [vm_compute; reflexivity|].
  apply (catalog_entries two_pages two_page_manifest [home; about] []);
    reflexivity.
Defined.

(** X19. A page whose content decodes to [null] is the one page the loop
    skips: it prints the page diagnostic, leaves the catalog as it is and
    goes on with the pages that follow. *)
Theorem null_page_skipped (zip : archive) (index : ArtBoardIndex.t)
  (rest : list ArtBoardIndex.t) (fonts : props FontData.t)
  (dataPath : string) :
  ArtBoardIndex.getDataPath index = Ok dataPath ->
  getEntry zip dataPath = Some (Encodes JNull) ->
  XdFonts.processBoards zip (index :: rest) fonts
  = (BoardLoadFailed dataPath :: fst (XdFonts.processBoards zip rest fonts),
     snd (XdFonts.processBoards zip rest fonts)).
Proof.
  intros Hpath Hentry. simpl. unfold XdFonts.processBoard.
  rewrite Hpath. simpl. rewrite Hentry. simpl.
  destruct (XdFonts.processBoards zip rest fonts) as [out r]. reflexivity.
Qed.

Lemma null_page_skipped_witness :
  XdFonts.processBoards (<[agc "artboard-1" := Encodes JNull]> two_pages)
                        [home; about] []
  = ([BoardLoadFailed (agc "artboard-1")], Ok traversal_fonts).
Proof.
  rewrite (null_page_skipped _ home [about] [] (agc "artboard-1"));
    vm_compute; reflexivity.
Defined.

Lemma processBoards_app zip indices1 indices2 : forall fonts,
  XdFonts.processBoards zip (indices1 ++ indices2) fonts
  = io_bind (XdFonts.processBoards zip indices1 fonts)
            (XdFonts.processBoards zip indices2).
Proof.
  induction indices1 as [|index rest IH]; intros fonts; simpl.
  - destruct (XdFonts.processBoards zip indices2 fonts). reflexivity.
  - unfold io_bind at 1 3.
    destruct (XdFonts.processBoard zip index fonts) as [out1 [fonts1|e]];
      [|reflexivity].
    rewrite IH. unfold io_bind.
    destruct (XdFonts.processBoards zip rest fonts1) as [out2 [fonts2|e]];
      [|reflexivity].
    destruct (XdFonts.processBoards zip indices2 fonts2) as [out3 r].
    rewrite app_assoc. reflexivity.
Qed.

(** X20. If the content entry of any enumerated page is missing from the
    archive or is not JSON, the loop ends in an exception, wherever the page
    stands in the enumeration and whatever the other pages hold: no catalog
    is returned. *)
Theorem unreadable_page_no_catalog (zip : archive)
  (before after : list ArtBoardIndex.t) (index : ArtBoardIndex.t)
  (fonts : props FontData.t) (dataPath : string) :
  ArtBoardIndex.getDataPath index = Ok dataPath ->
  getEntry zip dataPath = None \/ getEntry zip dataPath = Some Malformed ->
  exists out e,
    XdFonts.processBoards zip (before ++ index :: after) fonts
    = (out, Throw e).
Proof.
  intros Hpath Hentry. rewrite processBoards_app. unfold io_bind at 1.
  destruct (XdFonts.processBoards zip before fonts) as [out1 [fonts1|e1]];
    [|eauto].
  simpl. unfold XdFonts.processBoard. rewrite Hpath. simpl.
  destruct Hentry as [-> | ->]; simpl; eauto.
Qed.

Lemma unreadable_page_no_catalog_witness :
  exists out e,
    XdFonts.processBoards (delete (agc "artboard-2") two_pages)
                          ([home] ++ about :: []) []
    = (out, Throw e).
Proof.
  apply (unreadable_page_no_catalog _ [home] [] about []
                                    (agc "artboard-2"));
    [reflexivity | left; reflexivity].
Defined.

(** X21. A run on an archive without a manifest entry throws a [TypeError],
    and on one whose manifest is not JSON a [SyntaxError]; either way
    nothing is printed, not even the manifest diagnostic. *)
Theorem unreadable_manifest_throws (zip : archive) :
  (getEntry zip "manifest" = None ->
   XdFonts.makeList zip = ([], Throw TypeError) /\
   main zip = ([], Throw TypeError)) /\
  (getEntry zip "manifest" = Some Malformed ->
   XdFonts.makeList zip = ([], Throw SyntaxError) /\
   main zip = ([], Throw SyntaxError)).
Proof.
  split; intros H; unfold main, XdFonts.makeList; rewrite H; split; reflexivity.
Qed.

Lemma unreadable_manifest_throws_witness :
  main ∅ = ([], Throw TypeError) /\
  main (<["manifest" := Malformed]> ∅) = ([], Throw SyntaxError).
Proof.
  split.
  - apply (unreadable_manifest_throws ∅). reflexivity.
  - apply (unreadable_manifest_throws (<["manifest" := Malformed]> ∅)).
    reflexivity.
Defined.

Lemma printFonts_blocks fonts : forall lines,
  Forall2 (fun kv line =>
             exists n st,
               FontData.name (snd kv) = Some (JStr n) /\
               FontData.style (snd kv) = Some (JStr st) /\
               line = Printed (block n st (FontData.usages (snd kv))))
          fonts lines ->
  printFonts fonts = (lines, Ok tt).
Proof.
  induction fonts as [|[key font] rest IH]; intros lines H; inversion H; subst.
  - reflexivity.
  - destruct H2 as (n & st & Hn & Hs & ->). simpl in *.
    rewrite (getUsages_strings font n st Hn Hs). simpl.
    rewrite (IH _ H4). reflexivity.
Qed.

(** X22. When the list is built and the name and style of every catalog
    entry are strings, the run prints, after the diagnostics of the list,
    one block for every entry, in the order of the catalog keys, and ends
    without an exception. *)
Theorem main_prints_blocks (zip : archive) (out lines : list console_line)
  (fonts : props FontData.t) :
  XdFonts.makeList zip = (out, Ok fonts) ->
  Forall2 (fun kv line =>
             exists n st,
               FontData.name (snd kv) = Some (JStr n) /\
               FontData.style (snd kv) = Some (JStr st) /\
               line = Printed (block n st (FontData.usages (snd kv))))
          fonts lines ->
  main zip = ((out ++ lines)%list, Ok tt).
Proof.
  intros Hlist Hlines. unfold main, io_bind. rewrite Hlist.
  rewrite (printFonts_blocks _ _ Hlines). reflexivity.
Qed.

Lemma main_prints_blocks_witness :
  main two_pages
  = ([Printed (block "Foo" "Bold" ["About [2]"]);
      Printed (block "Bar" "" ["About [2]"])], Ok tt).
Proof.
  apply (main_prints_blocks two_pages []
           [Printed (block "Foo" "Bold" ["About [2]"]);
            Printed (block "Bar" "" ["About [2]"])]
           [("Foo-Bold",
             FontData.addUsage "About [2]"
               (FontData.new (Some (JStr "Foo")) (Some (JStr "Bold"))
                             (Some (JStr "Foo-Bold"))));
            ("Bar-Reg",
             FontData.addUsage "About [2]"
               (FontData.new (Some (JStr "Bar")) (Some JNull)
                             (Some (JStr "Bar-Reg"))))]).
  - vm_compute. reflexivity.
  - repeat constructor; simpl; eexists; eexists; repeat split.
Defined.

Lemma replace_own_same {A} k (v : A) (o : props A) :
  own_get k o = Some v -> replace_own k v o = o.
Proof.
  induction o as [|[k' v'] o IH]; simpl; [reflexivity|].
  destruct (String.eqb_spec k' k) as [->|Hne].
  - intros [= ->]. reflexivity.
  - intros H. rewrite (IH H). reflexivity.
Qed.

Lemma has_own_keys {A B} k (o : props A) (o' : props B) :
  own_keys o = own_keys o' -> has_own k o = has_own k o'.
Proof.
  intros Hk. destruct (has_own k o') eqn:H'.
  - destruct (has_own k o) eqn:H; [reflexivity|].
    apply has_own_false, own_get_None in H. rewrite Hk in H.
    apply own_get_None, has_own_false in H. congruence.
  - apply has_own_false, own_get_None in H'. rewrite <- Hk in H'.
    apply has_own_false, own_get_None, H'.
Qed.

Lemma has_own_elem {A} k (o : props A) :
  has_own k o = true <-> k ∈ own_keys o.
Proof.
  destruct (has_own k o) eqn:H.
  - split; [intros _|reflexivity].
    destruct (decide (k ∈ own_keys o)) as [Hin|Hnin]; [exact Hin|].
    apply own_get_None, has_own_false in Hnin. congruence.
  - apply has_own_false, own_get_None in H. split; [discriminate | tauto].
Qed.

Lemma mergeFonts_has_keys index pageFonts fonts fonts' k :
  XdFonts.mergeFonts index pageFonts fonts = Ok fonts' ->
  k ∈ own_keys pageFonts -> has_own k fonts' = true.
Proof.
  intros Hm Hk. apply has_own_elem, has_own_true in Hk.
  destruct Hk as [font Hk].
  pose proof (mergeFonts_spec _ _ _ _ Hm k) as Hs. rewrite Hk in Hs.
  apply has_own_true.
  destruct (own_get k fonts); simpl in Hs; inversion Hs; eauto.
Qed.

Lemma labelled_mergeFonts index pageFonts fonts fonts' label k :
  XdFonts.mergeFonts index pageFonts fonts = Ok fonts' ->
  labelled label k fonts -> labelled label k fonts'.
Proof.
  intros Hm (font & Hget & Hl).
  pose proof (mergeFonts_spec _ _ _ _ Hm k) as Hs. rewrite Hget in Hs.
  simpl in Hs. inversion Hs as [? font' (_ & _ & _ & more & Hu) |]; subst.
  exists font'. split; [congruence|]. rewrite Hu. apply elem_of_app. auto.
Qed.

(** Merging a page all of whose fonts the catalog has: no key is added, and
    afterwards every font of the page carries the label of the page. *)
Lemma mergeFonts_known index pageFonts : forall fonts fonts',
  (forall k, k ∈ own_keys pageFonts -> has_own k fonts = true) ->
  XdFonts.mergeFonts index pageFonts fonts = Ok fonts' ->
  own_keys fonts' = own_keys fonts /\
  (pageFonts <> [] ->
   has_own "hasOwnProperty" fonts = false /\
   exists label,
     ArtBoardIndex.label index = Ok label /\
     forall k, k ∈ own_keys pageFonts -> labelled label k fonts').
Proof.
  induction pageFonts as [|[key pageFont] rest IH]; simpl;
    intros fonts fonts' Hkeys.
  - intros [= <-]. split; [reflexivity | congruence].
  - destruct (XdFonts.mergeFont index key pageFont fonts) as [fonts1|] eqn:H1;
      [|discriminate].
    intros Hrest. unfold XdFonts.mergeFont in H1.
    destruct (has_own "hasOwnProperty" fonts) eqn:Hh; [discriminate|].
    assert (Hk : has_own key fonts = true)
      by (apply Hkeys, list_elem_of_here).
    apply has_own_true in Hk. destruct Hk as [font Hget]. rewrite Hget in H1.
    destruct (ArtBoardIndex.label index) as [label|] eqn:Hl; [|discriminate].
    injection H1 as <-.
    set (fonts1 := replace_own key (FontData.addUsage label font) fonts) in *.
    assert (Hk1 : own_keys fonts1 = own_keys fonts)
      by apply own_keys_replace_own.
    destruct (IH fonts1 fonts') as [Hk' Hlab]; [|exact Hrest|].
    { intros k Hk. rewrite (has_own_keys k fonts1 fonts Hk1).
      apply Hkeys, list_elem_of_further, Hk. }
    split; [congruence|]. intros _. split; [reflexivity|].
    exists label. split; [reflexivity|]. intros k Hk.
    apply elem_of_cons in Hk. destruct Hk as [->|Hk].
    + apply (labelled_mergeFonts _ _ _ _ _ _ Hrest).
      exists (FontData.addUsage label font). split.
      * unfold fonts1. rewrite own_get_replace_own, String.eqb_refl, Hget.
        reflexivity.
      * unfold FontData.addUsage.
        destruct (existsb (String.eqb label) (FontData.usages font)) eqn:He.
        -- apply existsb_eqb_elem, He.
        -- simpl. apply elem_of_app. right. apply list_elem_of_here.
    + destruct rest as [|kv rest'];
        [apply elem_of_nil in Hk; contradiction|].
      destruct Hlab as (_ & label' & Hl' & Hall); [discriminate|].
      assert (label' = label) by congruence. subst label'. apply Hall, Hk.
Qed.

(** Merging a page every font of which already carries the label of the
    page changes nothing. *)
Lemma mergeFonts_labelled index label pageFonts fonts :
  ArtBoardIndex.label index = Ok label ->
  has_own "hasOwnProperty" fonts = false ->
  (forall k, k ∈ own_keys pageFonts -> labelled label k fonts) ->
  XdFonts.mergeFonts index pageFonts fonts = Ok fonts.
Proof.
  intros Hl Hh. induction pageFonts as [|[key pageFont] rest IH]; simpl;
    intros Hall; [reflexivity|].
  unfold XdFonts.mergeFont. rewrite Hh.
  destruct (Hall key (list_elem_of_here _ _)) as (font & Hget & Hin).
  rewrite Hget, Hl.
  assert (Hsame : FontData.addUsage label font = font).
  { unfold FontData.addUsage. apply existsb_eqb_elem in Hin. rewrite Hin.
    reflexivity. }
  rewrite Hsame, (replace_own_same _ _ _ Hget).
  apply IH. intros k Hk. apply Hall, list_elem_of_further, Hk.
Qed.

(** X23. Merging the font map of a page under the same page is stable from
    the second time on: once it has been merged twice, merging it again
    leaves the catalog exactly as it is. *)
Theorem mergeFonts_stable (index : ArtBoardIndex.t)
  (pageFonts fonts fonts1 fonts2 : props FontData.t) :
  XdFonts.mergeFonts index pageFonts fonts = Ok fonts1 ->
  XdFonts.mergeFonts index pageFonts fonts1 = Ok fonts2 ->
  XdFonts.mergeFonts index pageFonts fonts2 = Ok fonts2.
Proof.
  intros H1 H2.
  destruct (mergeFonts_known index pageFonts fonts1 fonts2) as [Hkeys Hlab];
    [|exact H2|].
  { intros k Hk. eapply mergeFonts_has_keys; eauto. }
  destruct pageFonts as [|kv rest]; [reflexivity|].
  destruct Hlab as (Hh & label & Hl & Hall); [discriminate|].
  apply (mergeFonts_labelled index label); [exact Hl| |exact Hall].
  rewrite (has_own_keys _ fonts2 fonts1 Hkeys). exact Hh.
Qed.

Lemma mergeFonts_stable_witness :
  exists twice,
    XdFonts.mergeFonts home traversal_fonts twice = Ok twice /\
    FontData.usages <$> own_get "Foo-Bold" twice = Some ["Home [1]"].
Proof.
  eexists. split.
  - apply (mergeFonts_stable home traversal_fonts [] traversal_fonts);
      vm_compute; reflexivity.
  - vm_compute. reflexivity.
Defined.

(** ** The identities of a run *)

Lemma declared_truthy doc font :
  declared doc font -> truthy doc = true /\ doc <> JNull.
Proof.
  intros [(o & Hsub & _) | (o & v & Hsub & _)];
    inversion Hsub; subst; split; (reflexivity || discriminate).
Qed.

Lemma findFonts_sound doc fonts :
  ArtBoard.findFonts doc ArtBoard.empty = Ok fonts ->
  Forall (fun kv => declared doc (snd kv)) (ArtBoard.own fonts).
Proof.
  intros Hscan.
  apply (findFonts_preserved
           (fun f => Forall (fun kv => declared doc (snd kv)) (ArtBoard.own f))
           (declared doc) (record_declared doc) doc (fun font H => H)
           ArtBoard.empty fonts); [constructor | exact Hscan].
Qed.

(** What [scanBoard] is on a page whose content entry decodes to a document
    that declares a font: the own properties of the scan of the document. *)
Lemma scanBoard_document zip index dataPath doc font r :
  ArtBoardIndex.getDataPath index = Ok dataPath ->
  getEntry zip dataPath = Some (Encodes doc) ->
  declared doc font ->
  scanBoard zip index = Ok r ->
  exists fonts,
    ArtBoard.findFonts doc ArtBoard.empty = Ok fonts /\
    r = Some (ArtBoard.own fonts).
Proof.
  intros Hpath Hentry Hdecl. destruct (declared_truthy _ _ Hdecl) as [Ht Hnn].
  assert (Hl : ArtBoard.isLoaded
                 {| ArtBoard.fonts := ArtBoard.empty;
                    ArtBoard.contents := doc |} = true)
    by (destruct doc; [congruence | reflexivity..]).
  unfold scanBoard. rewrite Hpath, Hentry. simpl. rewrite Hl. simpl.
  unfold ArtBoard.updateFonts. simpl. rewrite Ht.
  destruct (ArtBoard.findFonts doc ArtBoard.empty) as [fonts|];
    [|discriminate].
  intros [= <-]. exists fonts. split; reflexivity.
Qed.

Lemma firstSeen_has zip indices index pageFonts key :
  index ∈ indices ->
  scanBoard zip index = Ok (Some pageFonts) ->
  has_own key pageFonts = true ->
  exists entry, firstSeen zip indices key = Some entry.
Proof.
  intros Hin Hscan Hkey. apply has_own_true in Hkey. destruct Hkey as [e He].
  induction indices as [|i rest IH]; [apply elem_of_nil in Hin; contradiction|].
  apply elem_of_cons in Hin. simpl. destruct Hin as [<-|Hin].
  - rewrite Hscan, He. eauto.
  - destruct (scanBoard zip i) as [[pf|]|]; auto.
    destruct (own_get key pf); eauto.
Qed.

Lemma processBoards_scans zip indices : forall fonts0 out fonts index,
  XdFonts.processBoards zip indices fonts0 = (out, Ok fonts) ->
  index ∈ indices ->
  exists r, scanBoard zip index = Ok r.
Proof.
  induction indices as [|i rest IH]; intros fonts0 out fonts index Hrun Hin;
    [apply elem_of_nil in Hin; contradiction|].
  simpl in Hrun. unfold io_bind in Hrun at 1.
  destruct (XdFonts.processBoard zip i fonts0) as [out1 [fonts1|]] eqn:H1;
    [|discriminate].
  destruct (XdFonts.processBoards zip rest fonts1) as [out2 r2] eqn:H2.
  injection Hrun as _ ->.
  apply elem_of_cons in Hin. destruct Hin as [->|Hin].
  - apply processBoard_Ok in H1.
    destruct (scanBoard zip i) as [r|]; [eauto | contradiction].
  - eapply IH; eauto.
Qed.

(** In a completed loop the identity of every declaration of every page
    document is a key of the catalog. *)
Lemma declared_key_in_catalog zip indices fonts0 out fonts index dataPath doc
  font key :
  XdFonts.processBoards zip indices fonts0 = (out, Ok fonts) ->
  index ∈ indices ->
  ArtBoardIndex.getDataPath index = Ok dataPath ->
  getEntry zip dataPath = Some (Encodes doc) ->
  declared doc font ->
  toString (FontData.id font) = Ok key -> key <> "__proto__" ->
  has_own key fonts = true.
Proof.
  intros Hrun Hin Hpath Hentry Hdecl Hkey Hne.
  destruct (processBoards_scans _ _ _ _ _ _ Hrun Hin) as [r Hr].
  destruct (scanBoard_document _ _ _ _ _ _ Hpath Hentry Hdecl Hr)
    as (pf & Hscan & ->).
  pose proof (findFonts_declared_key font key Hkey Hne _ _ _ Hdecl Hscan)
    as Hhas.
  destruct (firstSeen_has _ _ _ _ key Hin Hr Hhas) as [e He].
  destruct (processBoards_spec _ _ _ _ _ Hrun) as [_ Hg].
  specialize (Hg key). rewrite He in Hg. apply has_own_true.
  destruct (own_get key fonts0); simpl in Hg; inversion Hg; eauto.
Qed.

Lemma makeList_loop zip manifest indices out fonts :
  getEntry zip "manifest" = Some (Encodes manifest) ->
  Manifest.getArtBoards manifest = Ok (Some indices) ->
  XdFonts.makeList zip = (out, Ok fonts) ->
  XdFonts.processBoards zip indices [] = (out, Ok fonts).
Proof.
  intros Hentry Hboards. unfold XdFonts.makeList. rewrite Hentry. simpl.
  assert (Hl : Manifest.isLoaded manifest = true).
  { destruct manifest; try reflexivity. discriminate Hboards. }
  rewrite Hl, Hboards. simpl.
  destruct (XdFonts.processBoards zip indices []) as [out' r].
  intros [= -> ->]. reflexivity.
Qed.






(** C10. A fragment of either shape without a [postscriptName] yields a
    declaration whose identity is [undefined]; it is stored under the key
    ["undefined"]; two such declarations, whatever their names and styles,
    leave one entry, the later one, and add no second key.  So the scan of
    a document that declares such a fragment, in any object at any depth,
    ends with one entry under ["undefined"], itself a declaration of the
    document, however many such fragments the document holds; and the
    catalog of a completed run over a page with such a document has the key
    ["undefined"], once (merging a page font map that has the key puts it
    in the catalog). *)
Theorem undefined_identity_collapses :
  (forall obj : props json,
      own_get "postscriptName" obj = None ->
      FontData.id (ArtBoard.inlineFont obj) = undefined) /\
  (forall v : json,
      get_prop v "postscriptName" = Ok undefined ->
      exists font, ArtBoard.nestedFont v = Ok font /\
                   FontData.id font = undefined) /\
  (forall font fonts,
      FontData.id font = undefined ->
      ArtBoard.record font fonts =
        Ok {| ArtBoard.own := own_set "undefined" font (ArtBoard.own fonts);
              ArtBoard.inherits_font := ArtBoard.inherits_font fonts |}) /\
  (forall font1 font2 fonts fonts1 fonts2,
      FontData.id font1 = undefined -> FontData.id font2 = undefined ->
      ArtBoard.record font1 fonts = Ok fonts1 ->
      ArtBoard.record font2 fonts1 = Ok fonts2 ->
      ArtBoard.own fonts2 = own_set "undefined" font2 (ArtBoard.own fonts) /\
      own_get "undefined" (ArtBoard.own fonts2) = Some font2 /\
      own_keys (ArtBoard.own fonts2) = own_keys (ArtBoard.own fonts1)) /\
  (forall index pageFonts fonts fonts',
      XdFonts.mergeFonts index pageFonts fonts = Ok fonts' ->
      has_own "undefined" pageFonts = true ->
      NoDup (own_keys fonts) ->
      has_own "undefined" fonts' = true /\ NoDup (own_keys fonts')) /\
  (forall this this' font,
      ArtBoard.updateFonts this = Ok this' ->
      declared (ArtBoard.contents this) font ->
      FontData.id font = undefined ->
      NoDup (own_keys (ArtBoard.own (ArtBoard.fonts this'))) /\
      exists entry,
        own_get "undefined" (ArtBoard.own (ArtBoard.fonts this')) = Some entry /\
        declared (ArtBoard.contents this) entry /\
        toString (FontData.id entry) = Ok "undefined") /\
  (forall zip manifest indices out fonts index dataPath doc font,
      getEntry zip "manifest" = Some (Encodes manifest) ->
      Manifest.getArtBoards manifest = Ok (Some indices) ->
      XdFonts.makeList zip = (out, Ok fonts) ->
      index ∈ indices ->
      ArtBoardIndex.getDataPath index = Ok dataPath ->
      getEntry zip dataPath = Some (Encodes doc) ->
      declared doc font ->
      FontData.id font = undefined ->
      has_own "undefined" fonts = true /\ NoDup (own_keys fonts)).
Proof.
  assert (Hrec : forall font fonts,
      FontData.id font = undefined ->
      ArtBoard.record font fonts =
        Ok {| ArtBoard.own := own_set "undefined" font (ArtBoard.own fonts);
              ArtBoard.inherits_font := ArtBoard.inherits_font fonts |}).
  { intros font fonts Hid. unfold ArtBoard.record. rewrite Hid. simpl.
    unfold ArtBoard.fonts_put. simpl. rewrite andb_false_r. reflexivity. }
  assert (Hkey : forall font,
      FontData.id font = undefined ->
      toString (FontData.id font) = Ok "undefined").
  { intros font ->. reflexivity. }
  split; [|split; [|split; [|split; [|split; [|split]]]]].
  - intros obj H. unfold FontData.id, ArtBoard.inlineFont. simpl. exact H.
  - intros v H. unfold ArtBoard.nestedFont.
    destruct v; try discriminate; simpl in *;
      try (injection H as H; rewrite H);
      (eexists; split; [reflexivity|]); reflexivity.
  - exact Hrec.
  - intros font1 font2 fonts fonts1 fonts2 H1 H2 R1 R2.
    rewrite (Hrec _ _ H1) in R1. injection R1 as <-.
    rewrite (Hrec _ _ H2) in R2. injection R2 as <-. simpl.
    split; [apply own_set_own_set|]. split.
    + rewrite own_get_own_set, String.eqb_refl. reflexivity.
    + apply own_keys_own_set_old, has_own_true. exists font1.
      rewrite own_get_own_set, String.eqb_refl. reflexivity.
  - intros index pageFonts fonts fonts' Hm Hp Hnd. split.
    + apply has_own_true in Hp. destruct Hp as [font Hp].
      pose proof (mergeFonts_spec _ _ _ _ Hm "undefined") as Hs.
      rewrite Hp in Hs. apply has_own_true.
      destruct (own_get "undefined" fonts); simpl in Hs; inversion Hs; eauto.
    + eapply mergeFonts_NoDup; eauto.
  - intros this this' font Hup Hdecl Hid.
    destruct (declared_truthy _ _ Hdecl) as [Ht _].
    unfold ArtBoard.updateFonts in Hup. rewrite Ht in Hup.
    destruct (ArtBoard.findFonts (ArtBoard.contents this) ArtBoard.empty)
      as [fonts|] eqn:Hscan; [|discriminate].
    injection Hup as <-. simpl.
    destruct (findFonts_scanned _ _ Hscan) as [Hnd Hall].
    split; [exact Hnd|].
    assert (Hhas : has_own "undefined" (ArtBoard.own fonts) = true).
    { apply (findFonts_declared_key font "undefined" (Hkey _ Hid)
               ltac:(discriminate) _ _ _ Hdecl Hscan). }
    apply has_own_true in Hhas. destruct Hhas as [entry He].
    exists entry. split; [exact He|].
    pose proof (own_get_elem _ _ _ He) as Hin. split.
    + pose proof (findFonts_sound _ _ Hscan) as Hs.
      rewrite Forall_forall in Hs. apply (Hs _ Hin).
    + rewrite Forall_forall in Hall. apply (Hall _ Hin).
  - intros zip manifest indices out fonts index dataPath doc font
           Hentry Hboards Hlist Hin Hpath Hdoc Hdecl Hid.
    pose proof (makeList_loop _ _ _ _ _ Hentry Hboards Hlist) as Hrun.
    split.
    + apply (declared_key_in_catalog _ _ _ _ _ _ _ _ _ _ Hrun Hin Hpath Hdoc
               Hdecl (Hkey _ Hid)). discriminate.
    + destruct (processBoards_spec _ _ _ _ _ Hrun) as [Hn _].
      apply Hn. constructor.
Qed.

(** An inline and a nested fragment without a [postscriptName], recorded
    one after the other into an empty font map, and the scan of a document
    that holds the two. *)
Lemma undefined_identity_collapses_witness :
  (FontData.id inline_anonymous = undefined /\
   ArtBoard.nestedFont anonymous_nested = Ok nested_anonymous) /\
  (ArtBoard.record inline_anonymous ArtBoard.empty
     = Ok (only_undefined inline_anonymous) /\
   ArtBoard.record nested_anonymous (only_undefined inline_anonymous)
     = Ok (only_undefined nested_anonymous)) /\
  (ArtBoard.own (only_undefined nested_anonymous)
     = own_set "undefined" nested_anonymous [] /\
   own_get "undefined" (ArtBoard.own (only_undefined nested_anonymous))
     = Some nested_anonymous /\
   own_keys (ArtBoard.own (only_undefined nested_anonymous))
     = own_keys (ArtBoard.own (only_undefined inline_anonymous))) /\
  ArtBoard.updateFonts {| ArtBoard.fonts := ArtBoard.empty;
                          ArtBoard.contents := anonymous_document |}
    = Ok {| ArtBoard.fonts := only_undefined nested_anonymous;
            ArtBoard.contents := anonymous_document |} /\
  NoDup (own_keys (ArtBoard.own (only_undefined nested_anonymous))) /\
  exists entry,
    own_get "undefined" (ArtBoard.own (only_undefined nested_anonymous))
      = Some entry /\
    declared anonymous_document entry /\
    toString (FontData.id entry) = Ok "undefined".
Proof.
  destruct undefined_identity_collapses
    as (Hinline & _ & Hrec & Hcol & _ & Hscan & _).
  split; [split; [apply Hinline|]; reflexivity|].
  split; [split; reflexivity|].
  split.
  - apply (Hcol inline_anonymous nested_anonymous ArtBoard.empty
                (only_undefined inline_anonymous)
                (only_undefined nested_anonymous)); reflexivity.
  - split; [reflexivity|].
    apply (Hscan {| ArtBoard.fonts := ArtBoard.empty;
                    ArtBoard.contents := anonymous_document |}
                 {| ArtBoard.fonts := only_undefined nested_anonymous;
                    ArtBoard.contents := anonymous_document |}
                 inline_anonymous); [reflexivity| |reflexivity].
    left. exists anonymous_inline.
    split; [|split; [discriminate | reflexivity]].
    eapply sub_item; [apply list_elem_of_here | apply sub_here].
Defined.
